(** * Brave ad-block request arbiter and bookmark order comparison

    A shallow embedding of

    - [AdBlockBaseService] (components/brave_shields/browser/
      ad_block_base_service.cc): the resource-type tables, the party
      classification, [ShouldStartRequest], and the rule-data reload path
      ([OnGetDATFileData], [UpdateAdBlockClient]);
    - [brave_sync::CompareOrder] (components/brave_sync/
      bookmark_order_util.cc).

    The two matching engines, the URL library and Chromium's [base] string
    helpers are external collaborators.  Engines are records carrying their
    matching function; the URL helpers are a type class; the [base] helpers
    are written out after their documented contracts. *)

From Stdlib Require Import ZArith List String Ascii Bool Lia DecimalString.
From stdpp Require Import base option gmap.

Local Open Scope Z_scope.

(** ** Chromium [base]: string splitting and number parsing *)

Module Base.

(** The characters of [base::kWhitespaceASCII], which are those of C's
    [isspace]: tab, line feed, vertical tab, form feed, carriage return,
    space. *)
Definition IsWhitespace (c : ascii) : bool :=
  let n := nat_of_ascii c in
  ((9 <=? n) && (n <=? 13) || (n =? 32))%nat.

Definition IsAsciiDigit (c : ascii) : bool :=
  let n := nat_of_ascii c in ((48 <=? n) && (n <=? 57))%nat.

(** Value of a decimal digit character (only used on digits). *)
Definition DigitValue (c : ascii) : Z := Z.of_nat (nat_of_ascii c) - 48.

Definition INT_MAX : Z := 2147483647.
Definition INT_MIN : Z := -2147483648.

Fixpoint drop_leading (p : ascii -> bool) (s : list ascii) : list ascii :=
  match s with
  | c :: s' => if p c then drop_leading p s' else s
  | [] => []
  end.

(** [base::TrimWhitespaceASCII(piece, TRIM_ALL)]. *)
Definition TrimWhitespace (s : list ascii) : list ascii :=
  rev (drop_leading IsWhitespace
         (rev (drop_leading IsWhitespace s))).

(** The pieces between separator characters, in order; [cur] is the
    piece being accumulated, most recent character first. *)
Fixpoint pieces (seps : list ascii) (s cur : list ascii)
  : list (list ascii) :=
  match s with
  | [] => [rev cur]
  | c :: s' =>
      if existsb (Ascii.eqb c) seps
      then rev cur :: pieces seps s' []
      else pieces seps s' (c :: cur)
  end.

Inductive WhitespaceHandling := KEEP_WHITESPACE | TRIM_WHITESPACE.
Inductive SplitResult := SPLIT_WANT_ALL | SPLIT_WANT_NONEMPTY.

Definition is_nil {A} (l : list A) : bool :=
  match l with [] => true | _ => false end.

(** [base::SplitString(input, separators, whitespace, result_type)]:
    every character of [separators] is a delimiter; each piece is
    trimmed when asked; empty pieces are kept or dropped according to
    [result_type]; the empty input has no piece at all. *)
Definition SplitString (input separators : string)
    (whitespace : WhitespaceHandling) (result_type : SplitResult)
  : list string :=
  match list_ascii_of_string input with
  | [] => []
  | cs =>
      let raw := pieces (list_ascii_of_string separators) cs [] in
      let trimmed :=
        match whitespace with
        | TRIM_WHITESPACE => map TrimWhitespace raw
        | KEEP_WHITESPACE => raw
        end in
      let kept :=
        match result_type with
        | SPLIT_WANT_NONEMPTY => List.filter (fun p => negb (is_nil p)) trimmed
        | SPLIT_WANT_ALL => trimmed
        end in
      map string_of_list_ascii kept
  end.

(** The digit loop of [StringToInt] for a non-negative number: [first]
    tells whether the next character is the first one, [acc] is the value
    so far.  A character that is no digit stops the parse with the value
    so far; a digit that would take the value over [INT_MAX] stops it
    with [INT_MAX]. *)
Fixpoint positive_digits (first : bool) (acc : Z) (s : list ascii)
  : bool * Z :=
  match s with
  | [] => (true, acc)
  | c :: s' =>
      if negb (IsAsciiDigit c) then (false, acc)
      else
        let d := DigitValue c in
        if first then positive_digits false (acc + d) s'
        else if (INT_MAX / 10 <? acc)
                || ((acc =? INT_MAX / 10) && (INT_MAX mod 10 <? d))
             then (false, INT_MAX)
             else positive_digits false (acc * 10 + d) s'
  end.

(** The same loop for a number written with a leading minus sign. *)
Fixpoint negative_digits (first : bool) (acc : Z) (s : list ascii)
  : bool * Z :=
  match s with
  | [] => (true, acc)
  | c :: s' =>
      if negb (IsAsciiDigit c) then (false, acc)
      else
        let d := DigitValue c in
        if first then negative_digits false (acc - d) s'
        else if (acc <? Z.quot INT_MIN 10)
                || ((acc =? Z.quot INT_MIN 10)
                    && (- Z.rem INT_MIN 10 <? d))
             then (false, INT_MIN)
             else negative_digits false (acc * 10 - d) s'
  end.

(** [base::StringToInt(input, &output)]: the returned flag is the
    function's result, the number is what [*output] holds afterwards.
    The flag is false for an empty input, leading whitespace, a character
    that is no digit, and overflow. *)
Definition StringToInt (input : string) : bool * Z :=
  let s := list_ascii_of_string input in
  let body := drop_leading IsWhitespace s in
  let valid := Nat.eqb (length body) (length s) in
  let '(ok, output) :=
    match body with
    | [] => (false, 0)
    | c :: rest =>
        if Ascii.eqb c "-" then
          if is_nil rest then (false, 0) else negative_digits true 0 rest
        else if Ascii.eqb c "+" then
          if is_nil rest then (false, 0) else positive_digits true 0 rest
        else positive_digits true 0 body
    end in
  (valid && ok, output).

End Base.

(** ** brave_sync: bookmark order strings *)

Module BookmarkOrder.
Import Base.

(** [std::vector<int> OrderToIntVect(const std::string& s)].  [None] is
    a failed [CHECK], which terminates the process. *)
Fixpoint check_ints (vec_s : list string) : option (list Z) :=
  match vec_s with
  | [] => Some []
  | piece :: rest =>
      let '(b, output) := StringToInt piece in
      if negb b then None                      (* CHECK(b) *)
      else if negb (0 <=? output) then None    (* CHECK(output >= 0) *)
      else match check_ints rest with
           | Some vec_int => Some (output :: vec_int)
           | None => None
           end
  end.

Definition OrderToIntVect (s : string) : option (list Z) :=
  let vec_s := SplitString s "." TRIM_WHITESPACE SPLIT_WANT_NONEMPTY in
  check_ints vec_s.

(** [std::lexicographical_compare] with [operator<] on [int]. *)
Fixpoint lexicographical_compare (l r : list Z) : bool :=
  match l, r with
  | x :: l', y :: r' =>
      if x <? y then true
      else if y <? x then false
      else lexicographical_compare l' r'
  | [], _ :: _ => true
  | _, [] => false
  end.

(** [bool CompareOrder(const std::string& left, const std::string& right)] *)
Definition CompareOrder (left right : string) : option bool :=
  match OrderToIntVect left with
  | None => None
  | Some vec_left =>
      match OrderToIntVect right with
      | None => None
      | Some vec_right => Some (lexicographical_compare vec_left vec_right)
      end
  end.

(** *** The reading of an order string that the comparison is checked
    against: components joined by dots, each a run of decimal digits. *)

Fixpoint join_dots (components : list string) : string :=
  match components with
  | [] => ""
  | [c] => c
  | c :: rest => c ++ "." ++ join_dots rest
  end.

Fixpoint decimal_value_from (acc : Z) (s : list ascii) : Z :=
  match s with
  | [] => acc
  | c :: s' => decimal_value_from (acc * 10 + DigitValue c) s'
  end.

Definition decimal_value (c : string) : Z :=
  decimal_value_from 0 (list_ascii_of_string c).

(** A non-negative decimal integer: one digit or more, nothing else. *)
Definition is_decimal (c : string) : bool :=
  let cs := list_ascii_of_string c in
  negb (is_nil cs) && forallb IsAsciiDigit cs.

(** A component the parser accepts: a non-negative decimal integer that
    fits [int]. *)
Definition is_order_component (c : string) : bool :=
  is_decimal c && (decimal_value c <=? INT_MAX).

(** Strict lexicographic order on integer vectors. *)
Inductive lex_lt : list Z -> list Z -> Prop :=
| lex_lt_nil y r : lex_lt [] (y :: r)
| lex_lt_head x y l r : x < y -> lex_lt (x :: l) (y :: r)
| lex_lt_tail x l r : lex_lt l r -> lex_lt (x :: l) (x :: r).

(** *** Pieces as the splitter may meet them *)

(** A component between two runs of whitespace; the component may be
    empty. *)
Record PaddedComponent := {
  pad_left : string;
  component : string;
  pad_right : string
}.

Definition padded (p : PaddedComponent) : string :=
  pad_left p ++ component p ++ pad_right p.

Definition is_whitespace_run (s : string) : bool :=
  forallb IsWhitespace (list_ascii_of_string s).

Definition is_empty (c : string) : bool :=
  is_nil (list_ascii_of_string c).

(** Whitespace on both sides of nothing or of a component the parser
    accepts. *)
Definition is_padded_piece (p : PaddedComponent) : bool :=
  is_whitespace_run (pad_left p) && is_whitespace_run (pad_right p)
  && (is_empty (component p) || is_order_component (component p)).

(** The values of the components that are not empty. *)
Definition padded_values (ps : list PaddedComponent) : list Z :=
  map decimal_value
    (List.filter (fun c => negb (is_empty c)) (map component ps)).

(** A string without a dot: one component of a dotted string, whatever
    else it holds. *)
Definition is_dot_free (c : string) : bool :=
  forallb (fun ch => negb (Ascii.eqb ch ".")) (list_ascii_of_string c).



(** A value an [int] holds and the second [CHECK] lets through. *)
Definition within_int (v : Z) : Prop := 0 <= v <= INT_MAX.

End BookmarkOrder.


(** ** brave_shields: the ad-block base service *)

Module AdBlock.

Local Open Scope string_scope.

(** *** Types of the collaborators *)

(** [content::ResourceType].  The enumerators are the ones the two tables
    name; [kUnrecognized raw] stands for every other value of the
    underlying integer type (the sentinel [RESOURCE_TYPE_LAST_TYPE]
    included), which a [switch] receives in its [default] branch. *)
Inductive ResourceType :=
| kMainFrame | kSubFrame | kStylesheet | kScript | kImage
| kFontResource | kSubResource | kObject | kMedia | kWorker
| kSharedWorker | kPrefetch | kFavicon | kXhr | kPing
| kServiceWorker | kCspReport | kPluginResource | kNavigationPreload
| kInvalidResourceType
| kUnrecognized (raw : Z).

(** The enumerators of the ad-block library's [FilterOption] that the
    service uses.  Their numeric values live in the library's header;
    the service only combines and tests them. *)
Class FilterOptionEnum := {
  FONoFilterOption : Z;
  FOScript : Z;
  FOImage : Z;
  FOStylesheet : Z;
  FOObject : Z;
  FOXmlHttpRequest : Z;
  FOSubdocument : Z;
  FODocument : Z;
  FOOther : Z;
  FOThirdParty : Z;
  FONotThirdParty : Z;
  FOPing : Z;
  FOFont : Z;
  FOMedia : Z;
  FOExplicitCancel : Z
}.

(** A rule of Engine B; the service reads its option bits only. *)
Record Filter := { filterOption : Z }.

(** Engine A, [adblock::Blocker]:
    [Matches(url, first_party_url, resource_type)]. *)
Record Blocker := { Matches : string -> string -> string -> bool }.

(** Engine B, [AdBlockClient]:
    [matches(input, contextOption, contextDomain, &matchingFilter,
    &matchingExceptionFilter)].  The two out-pointers start as [nullptr];
    the triple is the returned flag and what they hold afterwards. *)
Record AdBlockClient := {
  matches : string -> Z -> string -> bool * option Filter * option Filter
}.

Record GURL := { spec : string }.

Record Origin := { scheme : string; host : string; port : Z }.

Definition CreateFromNormalizedTuple (scheme host : string) (port : Z)
  : Origin :=
  {| scheme := scheme; host := host; port := port |}.

Inductive PrivateRegistryFilter :=
| EXCLUDE_PRIVATE_REGISTRIES
| INCLUDE_PRIVATE_REGISTRIES.

(** The URL helpers the service calls:
    [net::registry_controlled_domains::SameDomainOrHost(url, origin,
    filter)] and [url::Origin::GetURL()]. *)
Class UrlLibrary := {
  SameDomainOrHost : GURL -> Origin -> PrivateRegistryFilter -> bool;
  GetURL : Origin -> GURL
}.

Definition DATFileDataBuffer := list Byte.byte.

(** [std::pair<std::unique_ptr<AdBlockClient>, DATFileDataBuffer>];
    [None] is the null pointer. *)
Definition GetDATFileDataResult : Type :=
  option AdBlockClient * DATFileDataBuffer.

(** The data members of [AdBlockBaseService] that the modelled methods
    touch. *)
Record AdBlockBaseService := {
  ad_block_client_ : option AdBlockClient;
  buffer_ : DATFileDataBuffer;
  ad_block_client2_ : Blocker
}.

(** *** The resource-type tables *)

Definition ResourceTypeToString (resource_type : ResourceType) : string :=
  match resource_type with
  | kMainFrame => "main_frame"
  | kSubFrame => "sub_frame"
  | kStylesheet => "stylesheet"
  | kScript => "script"
  | kFavicon | kImage => "image"
  | kFontResource => "font"
  | kSubResource => "other"
  | kObject => "object"
  | kMedia => "media"
  | kXhr => "xhr"
  | kPing => "ping"
  | kWorker | kSharedWorker | kPrefetch | kServiceWorker | kCspReport
  | kPluginResource | _ => ""
  end.

Definition ResourceTypeToFilterOption `{FilterOptionEnum}
    (resource_type : ResourceType) : Z :=
  match resource_type with
  | kMainFrame => FODocument
  | kSubFrame => FOSubdocument
  | kStylesheet => FOStylesheet
  | kScript => FOScript
  | kFavicon | kImage => FOImage
  | kFontResource => FOFont
  | kSubResource => FOOther
  | kObject => FOObject
  | kMedia => FOMedia
  | kXhr => FOXmlHttpRequest
  | kPing => FOPing
  | kWorker | kSharedWorker | kPrefetch | kServiceWorker | kCspReport
  | kPluginResource | kNavigationPreload | kInvalidResourceType
  | _ => FONoFilterOption
  end.

(** *** Effects

    A method runs against a [World]: the service object, the caller's
    [bool] cells that out-pointers designate, the record of engine
    invocations, the tasks posted to the IO thread and the error log.
    A null dereference ends the run. *)

Definition loc := nat.

Inductive EngineCall :=
| CallMatchesA (url first_party_url resource_type : string)
| CallMatchesB (input : string) (contextOption : Z) (contextDomain : string).

Inductive IOTask :=
| UpdateAdBlockClientTask
    (ad_block_client : option AdBlockClient) (buffer : DATFileDataBuffer).

Record World := {
  service : AdBlockBaseService;
  cells : gmap loc bool;
  engine_calls : list EngineCall;
  io_tasks : list IOTask;
  error_log : list string
}.

Inductive Fault :=
| NullAdBlockClient
| NullDidMatchException.

Inductive Outcome (A : Type) :=
| Returned (a : A)
| Crashed (f : Fault).
Arguments Returned {A} a.
Arguments Crashed {A} f.

Definition M (A : Type) : Type := World -> Outcome A * World.

#[export] Instance M_ret : MRet M := fun A a w => (Returned a, w).

#[export] Instance M_bind : MBind M := fun A B k m w =>
  match m w with
  | (Returned a, w') => k a w'
  | (Crashed f, w') => (Crashed f, w')
  end.

Definition crash {A} (f : Fault) : M A := fun w => (Crashed f, w).

Definition get_service : M AdBlockBaseService :=
  fun w => (Returned (service w), w).

Definition put_service (s : AdBlockBaseService) : M unit := fun w =>
  (Returned tt,
   {| service := s; cells := cells w; engine_calls := engine_calls w;
      io_tasks := io_tasks w; error_log := error_log w |}).

(** [*p = v] for a non-null [p]. *)
Definition store (p : loc) (v : bool) : M unit := fun w =>
  (Returned tt,
   {| service := service w; cells := <[p := v]> (cells w);
      engine_calls := engine_calls w; io_tasks := io_tasks w;
      error_log := error_log w |}).

Definition record_call (c : EngineCall) : M unit := fun w =>
  (Returned tt,
   {| service := service w; cells := cells w;
      engine_calls := engine_calls w ++ [c]; io_tasks := io_tasks w;
      error_log := error_log w |}).

(** [LOG(ERROR) << msg] *)
Definition LOG_ERROR (msg : string) : M unit := fun w =>
  (Returned tt,
   {| service := service w; cells := cells w;
      engine_calls := engine_calls w; io_tasks := io_tasks w;
      error_log := error_log w ++ [msg] |}).

(** [base::PostTaskWithTraits(FROM_HERE, {BrowserThread::IO}, task)] *)
Definition PostTask (t : IOTask) : M unit := fun w =>
  (Returned tt,
   {| service := service w; cells := cells w;
      engine_calls := engine_calls w; io_tasks := io_tasks w ++ [t];
      error_log := error_log w |}).

Definition take_io_tasks : M (list IOTask) := fun w =>
  (Returned (io_tasks w),
   {| service := service w; cells := cells w;
      engine_calls := engine_calls w; io_tasks := [];
      error_log := error_log w |}).

(** [ad_block_client2_->Matches(...)] *)
Definition call_Matches (engine : Blocker)
    (url first_party_url resource_type : string) : M bool :=
  record_call (CallMatchesA url first_party_url resource_type);;
  mret (Matches engine url first_party_url resource_type).

(** [ad_block_client_->matches(...)]; the engine pointer is
    dereferenced. *)
Definition call_matches (engine : option AdBlockClient)
    (input : string) (contextOption : Z) (contextDomain : string)
  : M (bool * option Filter * option Filter) :=
  match engine with
  | None => crash NullAdBlockClient
  | Some client =>
      record_call (CallMatchesB input contextOption contextDomain);;
      mret (matches client input contextOption contextDomain)
  end.

Definition non_null {A} (p : option A) : bool :=
  match p with Some _ => true | None => false end.

(** *** The service's methods *)

Section Service.
Context `{FilterOptionEnum} `{UrlLibrary}.

(** [url::Origin::CreateFromNormalizedTuple("https", tab_host, 80)] *)
Definition tab_origin (tab_host : string) : Origin :=
  CreateFromNormalizedTuple "https" tab_host 80.

(** The value of the local [current_option] when the engines are
    queried: the resource-type option with the party flag or-ed in. *)
Definition current_option (url : GURL) (resource_type : ResourceType)
    (tab_host : string) : Z :=
  let current_option := ResourceTypeToFilterOption resource_type in
  if SameDomainOrHost url (tab_origin tab_host) INCLUDE_PRIVATE_REGISTRIES
  then Z.lor current_option FONotThirdParty
  else Z.lor current_option FOThirdParty.

(** [bool AdBlockBaseService::ShouldStartRequest(const GURL& url,
    content::ResourceType resource_type, const std::string& tab_host,
    bool* did_match_exception, bool* cancel_request_explicitly)].
    An out-pointer is [None] when null and [Some p] when it designates
    the caller's cell [p]. *)
Definition ShouldStartRequest (url : GURL) (resource_type : ResourceType)
    (tab_host : string)
    (did_match_exception cancel_request_explicitly : option loc)
  : M bool :=
  let current_option := current_option url resource_type tab_host in
  let tab_origin := tab_origin tab_host in
  this ← get_service;
  hit ← call_Matches (ad_block_client2_ this) (spec url)
          (spec (GetURL tab_origin)) (ResourceTypeToString resource_type);
  if hit : bool then mret false
  else
    '(hit, matching_filter, matching_exception_filter) ←
      call_matches (ad_block_client_ this) (spec url) current_option
        tab_host;
    if hit : bool then
      match matching_filter, cancel_request_explicitly with
      | Some f, Some q =>
          if negb (Z.eqb (Z.land (filterOption f) FOExplicitCancel) 0)
          then store q true
          else mret tt
      | _, _ => mret tt
      end;;
      match did_match_exception with
      | Some p => store p false
      | None => crash NullDidMatchException
      end;;
      mret false
    else
      match did_match_exception with
      | Some p => store p (non_null matching_exception_filter)
      | None => mret tt
      end;;
      mret true.

End Service.

(** [void AdBlockBaseService::Cleanup()]: the engine pointer is released
    (its deletion is handed to the IO thread). *)
Definition Cleanup : M unit :=
  this ← get_service;
  put_service {| ad_block_client_ := None; buffer_ := buffer_ this;
                 ad_block_client2_ := ad_block_client2_ this |}.

(** [void AdBlockBaseService::UpdateAdBlockClient(
      std::unique_ptr<AdBlockClient> ad_block_client,
      brave_component_updater::DATFileDataBuffer buffer)] *)
Definition UpdateAdBlockClient (ad_block_client : option AdBlockClient)
    (buffer : DATFileDataBuffer) : M unit :=
  this ← get_service;
  put_service {| ad_block_client_ := ad_block_client; buffer_ := buffer;
                 ad_block_client2_ := ad_block_client2_ this |}.

(** [void AdBlockBaseService::OnGetDATFileData(GetDATFileDataResult)] *)
Definition OnGetDATFileData (result : GetDATFileDataResult) : M unit :=
  if Base.is_nil (snd result)
  then LOG_ERROR "Could not obtain ad block data"
  else if negb (non_null (fst result))
  then LOG_ERROR "Failed to deserialize ad block data"
  else PostTask (UpdateAdBlockClientTask (fst result) (snd result)).

(** The IO thread runs the tasks posted to it, in order. *)
Definition run_io_task (t : IOTask) : M unit :=
  match t with
  | UpdateAdBlockClientTask ad_block_client buffer =>
      UpdateAdBlockClient ad_block_client buffer
  end.

Fixpoint run_io_tasks (ts : list IOTask) : M unit :=
  match ts with
  | [] => mret tt
  | t :: ts' => run_io_task t;; run_io_tasks ts'
  end.

Definition RunIOThread : M unit :=
  ts ← take_io_tasks; run_io_tasks ts.

(** *** What an evaluation is observed through *)

Section Observation.
Context `{FilterOptionEnum} `{UrlLibrary}.
Variables (url : GURL) (resource_type : ResourceType) (tab_host : string).

(** The two engine invocations of a request. *)
Definition call_A : EngineCall :=
  CallMatchesA (spec url) (spec (GetURL (tab_origin tab_host)))
    (ResourceTypeToString resource_type).
Definition call_B : EngineCall :=
  CallMatchesB (spec url) (current_option url resource_type tab_host)
    tab_host.

(** Engine A's answer for the request in world [w]. *)
Definition engine_A_hit (w : World) : bool :=
  Matches (ad_block_client2_ (service w)) (spec url)
    (spec (GetURL (tab_origin tab_host)))
    (ResourceTypeToString resource_type).

(** Engine B's answer for the request, when it is asked. *)
Definition engine_B_answer (b : AdBlockClient)
  : bool * option Filter * option Filter :=
  matches b (spec url) (current_option url resource_type tab_host)
    tab_host.
End Observation.

(** A rule carries the explicit-cancel property. *)
Definition carries_explicit_cancel `{FilterOptionEnum} (f : Filter) : bool :=
  negb (Z.eqb (Z.land (filterOption f) FOExplicitCancel) 0).

(** The cells after the block path of Engine B wrote through the
    out-pointers [Some p] and [cancel_request_explicitly]: first
    [*cancel_request_explicitly = true] when asked for and due, then
    [*did_match_exception = false]. *)
Definition cells_after_block `{FilterOptionEnum} (cs : gmap loc bool)
    (matching_filter : option Filter)
    (cancel_request_explicitly : option loc) (p : loc) : gmap loc bool :=
  <[p := false]>
    (match matching_filter, cancel_request_explicitly with
     | Some f, Some q =>
         if carries_explicit_cancel f then <[q := true]> cs else cs
     | _, _ => cs
     end).

(** The world after the engines were invoked with [calls] and the cells
    became [cs]. *)
Definition evaluated (w : World) (calls : list EngineCall)
    (cs : gmap loc bool) : World :=
  {| service := service w; cells := cs;
     engine_calls := engine_calls w ++ calls; io_tasks := io_tasks w;
     error_log := error_log w |}.

(** A bitset has one of the bits of [flag]: the test [option & flag]. *)
Definition has_flag (option flag : Z) : bool :=
  negb (Z.eqb (Z.land option flag) 0).

(** The resource-type options a request can carry. *)
Definition resource_options `{FilterOptionEnum} : list Z :=
  [FONoFilterOption; FODocument; FOSubdocument; FOStylesheet; FOScript;
   FOImage; FOFont; FOOther; FOObject; FOMedia; FOXmlHttpRequest; FOPing].

(** What the library's header provides for the two party flags: each is
    a bit of its own, shared with no resource-type option. *)
Definition party_flags_separate `{FilterOptionEnum} : Prop :=
  FOThirdParty <> 0 /\ FONotThirdParty <> 0
  /\ Z.land FOThirdParty FONotThirdParty = 0
  /\ Forall (fun o => Z.land o FOThirdParty = 0
                      /\ Z.land o FONotThirdParty = 0) resource_options.

(** The residual bucket of the resource-type tables, [kUnrecognized]
    values apart. *)
Definition residual_types : list ResourceType :=
  [kWorker; kSharedWorker; kPrefetch; kServiceWorker; kCspReport;
   kPluginResource; kNavigationPreload; kInvalidResourceType].

(** *** The four outcome states of an evaluation *)

Inductive OutcomeState :=
| BlockedExplicitCancel
| BlockedPlain
| AllowedByException
| AllowedNoMatch.

(** What the caller reads after the call: the returned flag and the two
    cells. *)
Record Verdict := {
  allow : bool;
  matchedException : bool;
  explicitCancel : bool
}.

Definition in_state (v : Verdict) (st : OutcomeState) : Prop :=
  match st with
  | BlockedExplicitCancel =>
      allow v = false /\ explicitCancel v = true
      /\ matchedException v = false
  | BlockedPlain =>
      allow v = false /\ explicitCancel v = false
      /\ matchedException v = false
  | AllowedByException => allow v = true /\ matchedException v = true
  | AllowedNoMatch => allow v = true /\ matchedException v = false
  end.

(** The verdict a caller reads when the call returned [ret] and left the
    world [w], both out-pointers designating cells. *)
Definition verdict_read (ret : bool) (w : World) (did_match_exception
    cancel_request_explicitly : loc) : option Verdict :=
  match cells w !! did_match_exception,
        cells w !! cancel_request_explicitly with
  | Some e, Some c =>
      Some {| allow := ret; matchedException := e; explicitCancel := c |}
  | _, _ => None
  end.

(** *** Concrete collaborators, for running the model *)

(** A bit assignment in the manner of the library's header: one bit per
    enumerator. *)
Definition octal_filter_options : FilterOptionEnum := {|
  FONoFilterOption := 0;
  FOScript := 1;
  FOImage := 2;
  FOStylesheet := 4;
  FOObject := 8;
  FOXmlHttpRequest := 16;
  FOSubdocument := 64;
  FODocument := 128;
  FOOther := 256;
  FOThirdParty := 8192;
  FONotThirdParty := 16384;
  FOPing := 32768;
  FOFont := 1048576;
  FOMedia := 2097152;
  FOExplicitCancel := 268435456
|}.

(** A URL library that knows exact hosts only: a URL is on the origin's
    host when its text starts with a scheme followed by that host and a
    slash. *)
Definition exact_host_urls : UrlLibrary := {|
  SameDomainOrHost := fun url origin _ =>
    String.prefix ("https://" ++ host origin ++ "/") (spec url)
    || String.prefix ("http://" ++ host origin ++ "/") (spec url);
  GetURL := fun origin =>
    {| spec := scheme origin ++ "://" ++ host origin ++ ":"
               ++ NilZero.string_of_int (Z.to_int (port origin)) ++ "/" |}
|}.

Definition engine_A_always : Blocker := {| Matches := fun _ _ _ => true |}.
Definition engine_A_never : Blocker := {| Matches := fun _ _ _ => false |}.

Definition cancelling_rule : Filter := {| filterOption := 268435456 + 1 |}.
Definition plain_rule : Filter := {| filterOption := 1 |}.

Definition engine_B_cancels : AdBlockClient :=
  {| matches := fun _ _ _ => (true, Some cancelling_rule, None) |}.
Definition engine_B_blocks : AdBlockClient :=
  {| matches := fun _ _ _ => (true, Some plain_rule, None) |}.
Definition engine_B_excepts : AdBlockClient :=
  {| matches := fun _ _ _ => (false, None, Some plain_rule) |}.
Definition engine_B_silent : AdBlockClient :=
  {| matches := fun _ _ _ => (false, None, None) |}.

Definition service_with (a : Blocker) (b : AdBlockClient)
  : AdBlockBaseService :=
  {| ad_block_client_ := Some b; buffer_ := []; ad_block_client2_ := a |}.

(** A world whose cells 0 and 1 hold [e] and [c]. *)
Definition world_with (s : AdBlockBaseService) (e c : bool) : World :=
  {| service := s; cells := <[0%nat := e]> (<[1%nat := c]> ∅);
     engine_calls := []; io_tasks := []; error_log := [] |}.

Definition tracker_url : GURL :=
  {| spec := "https://ads.example.com/track.js" |}.
Definition app_url : GURL := {| spec := "https://example.com/app.js" |}.

(** [AdBlockBaseService::AdBlockBaseService(delegate)]: Engine B is a
    default-constructed [AdBlockClient], Engine A a [Blocker] built from
    one rule, the buffer is empty.  The two engine constructors belong to
    the engines' libraries. *)
Definition construct (new_AdBlockClient : AdBlockClient)
    (new_Blocker : string -> Blocker) : AdBlockBaseService :=
  {| ad_block_client_ := Some new_AdBlockClient;
     buffer_ := [];
     ad_block_client2_ := new_Blocker "||brianbondy.com" |}.

(** The world a service starts in: nothing invoked, posted or logged
    yet. *)
Definition started (s : AdBlockBaseService) (cs : gmap loc bool) : World :=
  {| service := s; cells := cs; engine_calls := []; io_tasks := [];
     error_log := [] |}.

(** *** Sequences of operations on the service *)

(** What happens to a service over its life: a rule-data load completes,
    the IO thread runs its pending tasks, a request is evaluated. *)
Inductive Operation :=
| LoadCompleted (result : GetDATFileDataResult)
| IOThreadRuns
| RequestStarts (url : GURL) (resource_type : ResourceType)
    (tab_host : string)
    (did_match_exception cancel_request_explicitly : option loc).

Section Operations.
Context `{FilterOptionEnum} `{UrlLibrary}.

Definition perform (op : Operation) : M unit :=
  match op with
  | LoadCompleted result => OnGetDATFileData result
  | IOThreadRuns => RunIOThread
  | RequestStarts url resource_type tab_host did_match_exception
      cancel_request_explicitly =>
      ShouldStartRequest url resource_type tab_host did_match_exception
        cancel_request_explicitly;;
      mret tt
  end.

Fixpoint perform_all (ops : list Operation) : M unit :=
  match ops with
  | [] => mret tt
  | op :: ops' => perform op;; perform_all ops'
  end.

End Operations.

(** A pending update carries an engine and a non-empty buffer. *)
Definition task_is_complete (t : IOTask) : bool :=
  match t with
  | UpdateAdBlockClientTask ad_block_client buffer =>
      non_null ad_block_client && negb (Base.is_nil buffer)
  end.

(** Engine B is there, and so will it be after the pending updates. *)
Definition engine_B_ready (w : World) : Prop :=
  ad_block_client_ (service w) <> None
  /\ Forall (fun t => task_is_complete t = true) (io_tasks w).

(** The world with another service object. *)
Definition with_service (w : World) (s : AdBlockBaseService) : World :=
  {| service := s; cells := cells w; engine_calls := engine_calls w;
     io_tasks := io_tasks w; error_log := error_log w |}.

(** The world with another error log. *)
Definition with_error_log (w : World) (l : list string) : World :=
  {| service := service w; cells := cells w; engine_calls := engine_calls w;
     io_tasks := io_tasks w; error_log := l |}.

(** The world once the IO thread has taken its pending tasks. *)
Definition drained (w : World) : World :=
  {| service := service w; cells := cells w; engine_calls := engine_calls w;
     io_tasks := []; error_log := error_log w |}.

(** The service after [UpdateAdBlockClient(client, buffer)]. *)
Definition updated (s : AdBlockBaseService) (client : option AdBlockClient)
    (buffer : DATFileDataBuffer) : AdBlockBaseService :=
  {| ad_block_client_ := client; buffer_ := buffer;
     ad_block_client2_ := ad_block_client2_ s |}.

(** Engine B blocks the request, after Engine A let it pass, by a rule
    that carries the explicit-cancel property. *)
Definition explicit_cancel_due `{FilterOptionEnum} `{UrlLibrary}
    (url : GURL) (resource_type : ResourceType) (tab_host : string)
    (w : World) : bool :=
  negb (engine_A_hit url resource_type tab_host w)
  && match ad_block_client_ (service w) with
     | Some b =>
         match engine_B_answer url resource_type tab_host b with
         | (true, Some f, _) => carries_explicit_cancel f
         | _ => false
         end
     | None => false
     end.

End AdBlock.

(** * Properties of the ad-block base service *)

Module AdBlockProofs.
Import AdBlock.
Local Open Scope string_scope.

Ltac run_monad :=
  unfold ShouldStartRequest, call_Matches, call_matches, get_service,
    record_call, store, crash, mbind, M_bind, mret, M_ret; simpl.

Lemma null_or_cell (pointer : option loc) :
  pointer = None \/ exists p, pointer = Some p.
Proof. destruct pointer as [p|]; [right; exists p |left]; reflexivity. Qed.

Section Evaluation.
Context `{FilterOptionEnum} `{UrlLibrary}.

Variables (url : GURL) (resource_type : ResourceType) (tab_host : string).
Variables (did_match_exception cancel_request_explicitly : option loc).
Variable w : World.

Local Abbreviation evaluate :=
  (ShouldStartRequest url resource_type tab_host did_match_exception
     cancel_request_explicitly w).
Local Abbreviation A_hit := (engine_A_hit url resource_type tab_host w).
Local Abbreviation B_answer := (engine_B_answer url resource_type tab_host).
Local Abbreviation to_A := (call_A url resource_type tab_host).
Local Abbreviation to_B := (call_B url resource_type tab_host).

(** *** The three paths through [ShouldStartRequest] *)

Lemma run_engine_A_hit :
  A_hit = true ->
  evaluate = (Returned false, evaluated w [to_A] (cells w)).
Proof.
  unfold engine_A_hit. intros HA. run_monad. rewrite HA. reflexivity.
Qed.

Lemma run_engine_B_missing :
  A_hit = false ->
  ad_block_client_ (service w) = None ->
  evaluate = (Crashed NullAdBlockClient, evaluated w [to_A] (cells w)).
Proof.
  unfold engine_A_hit. intros HA HB. run_monad. rewrite HA, HB.
  reflexivity.
Qed.

Lemma run_engine_B_hit b matching_filter matching_exception_filter p :
  A_hit = false ->
  ad_block_client_ (service w) = Some b ->
  B_answer b = (true, matching_filter, matching_exception_filter) ->
  did_match_exception = Some p ->
  evaluate
  = (Returned false,
     evaluated w [to_A; to_B]
       (cells_after_block (cells w) matching_filter
          cancel_request_explicitly p)).
Proof.
  unfold engine_A_hit, engine_B_answer, cells_after_block,
    carries_explicit_cancel.
  intros HA HB Hm ->. run_monad. rewrite HA, HB. simpl. rewrite Hm.
  unfold evaluated, call_A, call_B. rewrite <- app_assoc. simpl.
  destruct matching_filter as [f|], cancel_request_explicitly as [q|];
    simpl; try reflexivity.
  destruct (Z.eqb (Z.land (filterOption f) FOExplicitCancel) 0);
    reflexivity.
Qed.

Lemma run_engine_B_hit_null b matching_filter matching_exception_filter :
  A_hit = false ->
  ad_block_client_ (service w) = Some b ->
  B_answer b = (true, matching_filter, matching_exception_filter) ->
  did_match_exception = None ->
  exists cs,
    evaluate
    = (Crashed NullDidMatchException, evaluated w [to_A; to_B] cs).
Proof.
  unfold engine_A_hit, engine_B_answer.
  intros HA HB Hm ->. run_monad. rewrite HA, HB. simpl. rewrite Hm.
  unfold evaluated, call_A, call_B. rewrite <- app_assoc. simpl.
  destruct matching_filter as [f|], cancel_request_explicitly as [q|];
    simpl; try (eexists; reflexivity).
  destruct (Z.eqb (Z.land (filterOption f) FOExplicitCancel) 0);
    simpl; eexists; reflexivity.
Qed.

Lemma run_no_hit b matching_filter matching_exception_filter :
  A_hit = false ->
  ad_block_client_ (service w) = Some b ->
  B_answer b = (false, matching_filter, matching_exception_filter) ->
  evaluate
  = (Returned true,
     evaluated w [to_A; to_B]
       (match did_match_exception with
        | Some p => <[p := non_null matching_exception_filter]> (cells w)
        | None => cells w
        end)).
Proof.
  unfold engine_A_hit, engine_B_answer.
  intros HA HB Hm. run_monad. rewrite HA, HB. simpl. rewrite Hm.
  unfold evaluated, call_A, call_B.
  destruct did_match_exception as [p|]; simpl; rewrite <- app_assoc;
    reflexivity.
Qed.

(** Every evaluation takes one of the paths above. *)
Lemma run_cases :
  (A_hit = true
   /\ evaluate = (Returned false, evaluated w [to_A] (cells w)))
  \/ (A_hit = false /\ ad_block_client_ (service w) = None
      /\ evaluate
         = (Crashed NullAdBlockClient, evaluated w [to_A] (cells w)))
  \/ (exists b mf mef,
        A_hit = false /\ ad_block_client_ (service w) = Some b
        /\ B_answer b = (true, mf, mef)
        /\ ((exists p, did_match_exception = Some p
              /\ evaluate
                 = (Returned false,
                    evaluated w [to_A; to_B]
                      (cells_after_block (cells w) mf
                         cancel_request_explicitly p)))
            \/ (did_match_exception = None
                /\ exists cs,
                     evaluate
                     = (Crashed NullDidMatchException,
                        evaluated w [to_A; to_B] cs))))
  \/ (exists b mf mef,
        A_hit = false /\ ad_block_client_ (service w) = Some b
        /\ B_answer b = (false, mf, mef)
        /\ evaluate
           = (Returned true,
              evaluated w [to_A; to_B]
                (match did_match_exception with
                 | Some p => <[p := non_null mef]> (cells w)
                 | None => cells w
                 end))).
Proof.
  destruct A_hit eqn:HA.
  { left. split; [reflexivity | exact (run_engine_A_hit HA)]. }
  right.
  destruct (ad_block_client_ (service w)) as [b|] eqn:HB.
  2:{ left. repeat split; try reflexivity.
      exact (run_engine_B_missing HA HB). }
  right.
  destruct (B_answer b) as [[hit mf] mef] eqn:Hm.
  destruct hit.
  - left. exists b, mf, mef. repeat split; try assumption.
    destruct (null_or_cell did_match_exception) as [Hp | [p Hp]].
    + right. split; [exact Hp |].
      exact (run_engine_B_hit_null b mf mef HA HB Hm Hp).
    + left. exists p. split; [exact Hp |].
      exact (run_engine_B_hit b mf mef p HA HB Hm Hp).
  - right. exists b, mf, mef. repeat split; try assumption.
    exact (run_no_hit b mf mef HA HB Hm).
Qed.

End Evaluation.

Section Claims.
Context `{FilterOptionEnum} `{UrlLibrary}.

(** C2: when Engine A reports no match and Engine B reports a blocking
    match whose rule carries [FOExplicitCancel], the call returns
    [false] (allow = false); it writes [true] through
    [cancel_request_explicitly] when that pointer is non-null and then
    [false] through [did_match_exception], so the caller reads
    matchedException = false and, in its own cell, explicitCancel =
    true.  [did_match_exception] designates the caller's cell [p]. *)
Theorem engine_B_explicit_cancel_blocks
    (url : GURL) (resource_type : ResourceType) (tab_host : string)
    (p : loc) (cancel_request_explicitly : option loc) (w : World)
    (b : AdBlockClient) (f : Filter)
    (matching_exception_filter : option Filter) :
  engine_A_hit url resource_type tab_host w = false ->
  ad_block_client_ (service w) = Some b ->
  engine_B_answer url resource_type tab_host b
    = (true, Some f, matching_exception_filter) ->
  carries_explicit_cancel f = true ->
  exists w',
    ShouldStartRequest url resource_type tab_host (Some p)
      cancel_request_explicitly w = (Returned false, w')
    /\ cells w'
       = <[p := false]>
           (match cancel_request_explicitly with
            | Some q => <[q := true]> (cells w)
            | None => cells w
            end)
    /\ cells w' !! p = Some false
    /\ (forall q, cancel_request_explicitly = Some q -> q <> p ->
          cells w' !! q = Some true).
Proof.
  intros HA HB Hm Hf.
  eexists. split.
  { exact (run_engine_B_hit url resource_type tab_host (Some p)
             cancel_request_explicitly w b (Some f)
             matching_exception_filter p HA HB Hm eq_refl). }
  unfold evaluated, cells_after_block; simpl. rewrite Hf.
  split; [reflexivity |]. split.
  - apply lookup_insert_eq.
  - intros q -> Hq. rewrite lookup_insert_ne by congruence.
    apply lookup_insert_eq.
Qed.

(** C3: when neither engine reports a blocking match the call returns
    [true] (allow = true), and a non-null [did_match_exception] cell
    holds [true] exactly when Engine B left a matching exception rule
    in [matching_exception_filter], and [false] otherwise; with a null
    pointer no cell is written. *)
Theorem no_block_reports_exception
    (url : GURL) (resource_type : ResourceType) (tab_host : string)
    (did_match_exception cancel_request_explicitly : option loc)
    (w : World) (b : AdBlockClient)
    (matching_filter matching_exception_filter : option Filter) :
  engine_A_hit url resource_type tab_host w = false ->
  ad_block_client_ (service w) = Some b ->
  engine_B_answer url resource_type tab_host b
    = (false, matching_filter, matching_exception_filter) ->
  exists w',
    ShouldStartRequest url resource_type tab_host did_match_exception
      cancel_request_explicitly w = (Returned true, w')
    /\ (forall p, did_match_exception = Some p ->
          (cells w' !! p = Some true
           <-> matching_exception_filter <> None)
          /\ (cells w' !! p = Some false
              <-> matching_exception_filter = None))
    /\ (did_match_exception = None -> cells w' = cells w).
Proof.
  intros HA HB Hm.
  eexists. split.
  { exact (run_no_hit url resource_type tab_host did_match_exception
             cancel_request_explicitly w b matching_filter
             matching_exception_filter HA HB Hm). }
  simpl. split.
  - intros p ->. rewrite lookup_insert_eq.
    destruct matching_exception_filter; simpl;
      split; split; congruence.
  - intros ->. reflexivity.
Qed.

(** C5: the option bitset of a request carries exactly one of the two
    party flags: [FONotThirdParty] exactly when [SameDomainOrHost]
    holds of the URL and the origin built from [tab_host] with scheme
    "https" and port 80, private registries included, and
    [FOThirdParty] otherwise; that bitset is the one Engine B
    receives. *)
Theorem party_classification
    (url : GURL) (resource_type : ResourceType) (tab_host : string) :
  party_flags_separate ->
  let same_party :=
    SameDomainOrHost url (CreateFromNormalizedTuple "https" tab_host 80)
      INCLUDE_PRIVATE_REGISTRIES in
  let bitset := current_option url resource_type tab_host in
  has_flag bitset FONotThirdParty = same_party
  /\ has_flag bitset FOThirdParty = negb same_party
  /\ call_B url resource_type tab_host
     = CallMatchesB (spec url) bitset tab_host.
Proof.
  intros (Htp & Hntp & Hdisj & Hres). simpl.
  assert (Hr : Z.land (ResourceTypeToFilterOption resource_type)
                 FOThirdParty = 0
               /\ Z.land (ResourceTypeToFilterOption resource_type)
                    FONotThirdParty = 0).
  { rewrite List.Forall_forall in Hres. apply Hres.
    unfold resource_options.
    destruct resource_type; simpl; tauto. }
  destruct Hr as [Hr1 Hr2].
  split; [| split; [| reflexivity]];
    unfold current_option, tab_origin, has_flag;
    destruct (SameDomainOrHost url _ INCLUDE_PRIVATE_REGISTRIES); simpl;
    rewrite Z.land_lor_distr_l.
  - rewrite Hr2, Z.land_diag, Z.lor_0_l.
    apply Z.eqb_neq in Hntp. rewrite Hntp. reflexivity.
  - rewrite Hr2, Hdisj. reflexivity.
  - rewrite Hr1, (Z.land_comm FONotThirdParty), Hdisj. reflexivity.
  - rewrite Hr1, Z.land_diag, Z.lor_0_l.
    apply Z.eqb_neq in Htp. rewrite Htp. reflexivity.
Qed.

(** C6: the two resource-type tables are total: every resource type,
    unrecognized values included, has exactly one filter option, taken
    from the twelve the table names; the residual bucket (worker,
    shared worker, prefetch, service worker, CSP report, plugin
    resource, navigation preload, invalid and unrecognized values) has
    [FONoFilterOption] and the empty type string. *)
Theorem resource_type_tables_total (resource_type : ResourceType) :
  (exists! option,
      ResourceTypeToFilterOption resource_type = option
      /\ In option resource_options)
  /\ (exists! name, ResourceTypeToString resource_type = name)
  /\ Forall (fun r => ResourceTypeToFilterOption r = FONoFilterOption
                      /\ ResourceTypeToString r = "") residual_types
  /\ (forall raw,
        ResourceTypeToFilterOption (kUnrecognized raw) = FONoFilterOption
        /\ ResourceTypeToString (kUnrecognized raw) = "").
Proof.
  split; [| split; [| split]].
  - exists (ResourceTypeToFilterOption resource_type). split.
    + split; [reflexivity |]. unfold resource_options.
      destruct resource_type; simpl; tauto.
    + intros o [<- _]. reflexivity.
  - exists (ResourceTypeToString resource_type).
    split; [reflexivity | intros n <-; reflexivity].
  - unfold residual_types.
    repeat (apply List.Forall_cons; [split; reflexivity |]).
    apply List.Forall_nil.
  - intros raw. split; reflexivity.
Qed.

(** C8: an evaluation leaves the service object as it found it (the
    Engine A and Engine B instances and the rule-data buffer), posts no
    task and logs nothing; what it does is invoke Engine A once and,
    at most, Engine B once after it.  This holds for every input,
    however the call ends. *)
Theorem evaluation_frame
    (url : GURL) (resource_type : ResourceType) (tab_host : string)
    (did_match_exception cancel_request_explicitly : option loc)
    (w : World) :
  let w' :=
    snd (ShouldStartRequest url resource_type tab_host
           did_match_exception cancel_request_explicitly w) in
  service w' = service w
  /\ ad_block_client2_ (service w') = ad_block_client2_ (service w)
  /\ ad_block_client_ (service w') = ad_block_client_ (service w)
  /\ buffer_ (service w') = buffer_ (service w)
  /\ io_tasks w' = io_tasks w
  /\ error_log w' = error_log w
  /\ (engine_calls w'
      = (engine_calls w ++ [call_A url resource_type tab_host])%list
      \/ engine_calls w'
         = (engine_calls w ++ [call_A url resource_type tab_host;
                               call_B url resource_type tab_host])%list).
Proof.
  simpl.
  destruct (run_cases url resource_type tab_host did_match_exception
              cancel_request_explicitly w)
    as [[_ E] | [(_ & _ & E) | [(b & mf & mef & _ & _ & _ & E)
                               | (b & mf & mef & _ & _ & _ & E)]]].
  - rewrite E; simpl. repeat split; auto.
  - rewrite E; simpl. repeat split; auto.
  - destruct E as [(p & _ & E) | (_ & cs & E)];
      rewrite E; simpl; repeat split; auto.
  - rewrite E; simpl. repeat split; auto.
Qed.

(** C9: the call ends in the null dereference of
    [did_match_exception] exactly when that pointer is null and the
    request takes Engine B's block path.  Hence a non-null
    [did_match_exception] rules the fault out, a null
    [cancel_request_explicitly] never causes one, and the no-block
    path tolerates a null [did_match_exception]. *)
Theorem did_match_exception_must_not_be_null
    (url : GURL) (resource_type : ResourceType) (tab_host : string)
    (did_match_exception cancel_request_explicitly : option loc)
    (w : World) :
  fst (ShouldStartRequest url resource_type tab_host
         did_match_exception cancel_request_explicitly w)
    = Crashed NullDidMatchException
  <-> (did_match_exception = None
       /\ engine_A_hit url resource_type tab_host w = false
       /\ exists b mf mef,
            ad_block_client_ (service w) = Some b
            /\ engine_B_answer url resource_type tab_host b
               = (true, mf, mef)).
Proof.
  destruct (run_cases url resource_type tab_host did_match_exception
              cancel_request_explicitly w)
    as [[HA E] | [(HA & HB & E) | [(b & mf & mef & HA & HB & Hm & E)
                                  | (b & mf & mef & HA & HB & Hm & E)]]].
  - rewrite E; simpl. split; [discriminate |].
    intros (_ & HA' & _). congruence.
  - rewrite E; simpl. split; [discriminate |].
    intros (_ & _ & b & mf & mef & HB' & _). congruence.
  - destruct E as [(p & Hp & E) | (Hp & cs & E)]; rewrite E; simpl.
    + split; [discriminate | intros (Hn & _); congruence].
    + split; [| reflexivity]. intros _.
      split; [exact Hp |]. split; [exact HA |].
      exists b, mf, mef. split; assumption.
  - rewrite E; simpl. split; [discriminate |].
    intros (_ & _ & b' & mf' & mef' & HB' & Hm').
    rewrite HB in HB'. injection HB' as <-. congruence.
Qed.

(** Away from Engine A's block, the caller reads exactly one of the four
    outcome states, and never a block together with an exception. *)
Lemma engine_B_paths_in_one_state
    (url : GURL) (resource_type : ResourceType) (tab_host : string)
    (p q : loc) (c : bool) (w : World) (b : AdBlockClient) :
  engine_A_hit url resource_type tab_host w = false ->
  ad_block_client_ (service w) = Some b ->
  p <> q ->
  cells w !! q = Some c ->
  exists ret w' v st,
    ShouldStartRequest url resource_type tab_host (Some p) (Some q) w
      = (Returned ret, w')
    /\ verdict_read ret w' p q = Some v
    /\ in_state v st
    /\ (forall st', in_state v st' -> st' = st)
    /\ ~ (allow v = false /\ matchedException v = true).
Proof.
  intros HA HB Hpq Hq.
  destruct (engine_B_answer url resource_type tab_host b)
    as [[hit mf] mef] eqn:Hm.
  destruct hit.
  - exists false. eexists.
    pose proof (run_engine_B_hit url resource_type tab_host (Some p)
                  (Some q) w b mf mef p HA HB Hm eq_refl) as Hrun.
    assert (Hc : exists c',
               cells_after_block (cells w) mf (Some q) p !! q = Some c').
    { unfold cells_after_block. rewrite lookup_insert_ne by assumption.
      destruct mf as [f|]; [| eauto].
      destruct (carries_explicit_cancel f); [| eauto].
      rewrite lookup_insert_eq. eauto. }
    destruct Hc as [c' Hc].
    exists {| allow := false; matchedException := false;
              explicitCancel := c' |}.
    exists (if c' then BlockedExplicitCancel else BlockedPlain).
    split; [exact Hrun |]. split.
    { unfold verdict_read, evaluated; simpl.
      unfold cells_after_block in *. rewrite lookup_insert_eq.
      unfold cells_after_block in Hc. rewrite Hc. reflexivity. }
    split; [destruct c'; simpl; auto |]. split.
    + intros []; destruct c'; simpl; intuition congruence.
    + simpl. intuition congruence.
  - exists true. eexists.
    pose proof (run_no_hit url resource_type tab_host (Some p) (Some q) w
                  b mf mef HA HB Hm) as Hrun.
    exists {| allow := true; matchedException := non_null mef;
              explicitCancel := c |}.
    exists (if non_null mef then AllowedByException else AllowedNoMatch).
    split; [exact Hrun |]. split.
    { unfold verdict_read, evaluated; simpl.
      rewrite lookup_insert_eq, lookup_insert_ne, Hq by assumption.
      reflexivity. }
    split; [destruct (non_null mef); simpl; auto |]. split.
    + intros []; destruct (non_null mef); simpl; intuition congruence.
    + simpl. intuition congruence.
Qed.

End Claims.

(** *** The reload path *)

Ltac run_reload :=
  unfold OnGetDATFileData, RunIOThread, take_io_tasks, LOG_ERROR, PostTask,
    UpdateAdBlockClient, get_service, put_service, mbind, M_bind, mret,
    M_ret; simpl.

Lemma run_bind {A B} (m : M A) (k : A -> M B) (w : World) :
  (m ≫= k) w
  = match m w with
    | (Returned a, w') => k a w'
    | (Crashed f, w') => (Crashed f, w')
    end.
Proof. reflexivity. Qed.

Lemma run_bind_assoc {A B C} (m : M A) (k1 : A -> M B) (k2 : B -> M C)
    (w : World) :
  (m ≫= (fun a => k1 a ≫= k2)) w = ((m ≫= k1) ≫= k2) w.
Proof.
  rewrite !run_bind. destruct (m w) as [[a|f] w']; reflexivity.
Qed.

(** The pending updates all run, in order; what they leave of the world
    apart from Engine B and the buffer is untouched. *)
Lemma run_io_tasks_result ts : forall w,
  exists s,
    run_io_tasks ts w = (Returned tt, with_service w s)
    /\ ad_block_client2_ s = ad_block_client2_ (service w)
    /\ (Forall (fun t => task_is_complete t = true) ts ->
        ad_block_client_ (service w) <> None ->
        ad_block_client_ s <> None).
Proof.
  induction ts as [|[client buffer] ts IH]; intros w.
  - exists (service w). destruct w; repeat split; auto.
  - destruct (IH (with_service w (updated (service w) client buffer)))
      as (s & Hrun & HA & HB).
    exists s. split; [| split].
    + simpl. unfold mbind, M_bind. run_reload. exact Hrun.
    + exact HA.
    + intros Hall _. apply HB.
      * exact (List.Forall_inv_tail Hall).
      * apply List.Forall_inv in Hall. simpl in *.
        destruct client; [discriminate | discriminate Hall].
Qed.

Lemma run_io_tasks_last ts : forall w client buffer,
  run_io_tasks (ts ++ [UpdateAdBlockClientTask client buffer])%list w
  = (Returned tt, with_service w (updated (service w) client buffer)).
Proof.
  induction ts as [|[c b] ts IH]; intros w client buffer.
  - reflexivity.
  - simpl. unfold mbind, M_bind. run_reload.
    exact (IH (with_service w (updated (service w) c b)) client buffer).
Qed.

(** The IO thread's work neither reads nor writes the error log. *)
Lemma run_io_tasks_carries_log ts : forall w l,
  run_io_tasks ts (with_error_log w l)
  = (fst (run_io_tasks ts w), with_error_log (snd (run_io_tasks ts w)) l).
Proof.
  induction ts as [|[c b] ts IH]; intros w l.
  - reflexivity.
  - exact (IH (with_service w (updated (service w) c b)) l).
Qed.

Lemma RunIOThread_carries_log w l :
  RunIOThread (with_error_log w l)
  = (fst (RunIOThread w), with_error_log (snd (RunIOThread w)) l).
Proof.
  unfold RunIOThread, take_io_tasks. rewrite !run_bind. simpl.
  exact (run_io_tasks_carries_log (io_tasks w) (drained w) l).
Qed.

Lemma RunIOThread_returns w : fst (RunIOThread w) = Returned tt.
Proof.
  unfold RunIOThread, take_io_tasks. rewrite run_bind. simpl.
  destruct (run_io_tasks_result (io_tasks w) (drained w))
    as (s & Hrun & _).
  unfold drained in Hrun. rewrite Hrun. reflexivity.
Qed.

(** C7: when a rule-data load completes, whatever updates are pending:
    if the buffer is empty or no engine was deserialized, no task is
    posted and the service (Engine B and the stored buffer included) is
    what it was, so that the IO thread leaves it as it would have without
    this load; if the buffer is non-empty and an engine was deserialized,
    exactly that update is posted, and once the IO thread has run the
    service holds the new engine and its buffer.  So the engine this load
    makes active is a deserialized one that came with a non-empty buffer,
    or none. *)
Theorem reload_swaps_only_complete_data
    (result : GetDATFileDataResult) (w : World) :
  let loaded := OnGetDATFileData result w in
  let run := (OnGetDATFileData result;; RunIOThread) w in
  fst loaded = Returned tt
  /\ fst run = Returned tt
  /\ service (snd loaded) = service w
  /\ io_tasks (snd loaded)
     = (io_tasks w
        ++ match fst result, snd result with
           | Some client, _ :: _ =>
               [UpdateAdBlockClientTask (Some client) (snd result)]
           | _, _ => []
           end)%list
  /\ service (snd run)
     = match fst result, snd result with
       | Some client, _ :: _ =>
           {| ad_block_client_ := Some client; buffer_ := snd result;
              ad_block_client2_ := ad_block_client2_ (service w) |}
       | _, _ => service (snd (RunIOThread w))
       end
  /\ (service (snd run) = service (snd (RunIOThread w))
      \/ exists client,
           fst result = Some client /\ snd result <> []
           /\ ad_block_client_ (service (snd run)) = Some client
           /\ buffer_ (service (snd run)) = snd result).
Proof.
  assert (Hfail : forall msg,
            OnGetDATFileData result w
            = (Returned tt,
               with_error_log w (error_log w ++ [msg])%list) ->
            fst ((OnGetDATFileData result;; RunIOThread) w) = Returned tt
            /\ service (snd ((OnGetDATFileData result;; RunIOThread) w))
               = service (snd (RunIOThread w))).
  { intros msg E. rewrite run_bind, E, RunIOThread_carries_log. simpl.
    split; [apply RunIOThread_returns | reflexivity]. }
  destruct result as [[client|] [|byte buffer]].
  - destruct (Hfail _ eq_refl) as [Hret Hsvc].
    simpl. rewrite app_nil_r. repeat split; auto.
  - assert (Hrun : (OnGetDATFileData (Some client, byte :: buffer);;
                    RunIOThread) w
                   = (Returned tt,
                      with_service (drained w)
                        (updated (service w) (Some client)
                           (byte :: buffer)))).
    { rewrite run_bind.
      change (OnGetDATFileData (Some client, byte :: buffer) w)
        with (PostTask (UpdateAdBlockClientTask (Some client)
                          (byte :: buffer)) w).
      unfold PostTask at 1. cbv iota.
      unfold RunIOThread, take_io_tasks. rewrite run_bind. cbv iota.
      exact (run_io_tasks_last (io_tasks w) (drained w) (Some client)
               (byte :: buffer)). }
    pose proof (f_equal fst Hrun) as Hret.
    pose proof (f_equal (fun r => service (snd r)) Hrun) as Hsvc.
    simpl in Hret, Hsvc. cbv zeta.
    split; [reflexivity |]. split; [exact Hret |].
    split; [reflexivity |]. split; [reflexivity |].
    split; [exact Hsvc |].
    right. exists client.
    split; [reflexivity |]. split; [discriminate |].
    split; [exact (f_equal ad_block_client_ Hsvc)
           | exact (f_equal buffer_ Hsvc)].
  - destruct (Hfail _ eq_refl) as [Hret Hsvc].
    simpl. rewrite app_nil_r. repeat split; auto.
  - destruct (Hfail _ eq_refl) as [Hret Hsvc].
    simpl. rewrite app_nil_r. repeat split; auto.
Qed.

(** *** The evaluation on concrete requests *)

(** C1: Engine A reports a match and the caller's [did_match_exception]
    cell holds [true]: the call returns [false] and only Engine A is
    invoked, but the cell still holds [true] afterwards; the early
    return does not write it. *)
Theorem engine_A_block_skips_did_match_exception :
  let w := world_with (service_with engine_A_always engine_B_excepts)
             true false in
  let run :=
    @ShouldStartRequest octal_filter_options exact_host_urls tracker_url
      kScript "example.com" (Some 0%nat) (Some 1%nat) w in
  fst run = Returned false
  /\ engine_calls (snd run)
     = [CallMatchesA "https://ads.example.com/track.js"
          "https://example.com:80/" "script"]
  /\ cells w !! 0%nat = Some true
  /\ cells (snd run) !! 0%nat = Some true.
Proof. vm_compute. repeat split; reflexivity. Qed.

(** C4: Engine A reports a match and the caller's [did_match_exception]
    cell holds [true]: the caller reads allow = false together with
    matchedException = true, which is none of the four outcome
    states. *)
Theorem engine_A_block_outside_outcome_states :
  let w := world_with (service_with engine_A_always engine_B_silent)
             true false in
  let run :=
    @ShouldStartRequest octal_filter_options exact_host_urls app_url
      kImage "example.com" (Some 0%nat) (Some 1%nat) w in
  exists v,
    fst run = Returned (allow v)
    /\ verdict_read (allow v) (snd run) 0%nat 1%nat = Some v
    /\ allow v = false /\ matchedException v = true
    /\ forall st, ~ in_state v st.
Proof.
  exists {| allow := false; matchedException := true;
            explicitCancel := false |}.
  repeat split; try reflexivity.
  intros [] Hst; simpl in Hst; intuition discriminate.
Qed.

Lemma engine_B_explicit_cancel_blocks_witness :
  exists w',
    @ShouldStartRequest octal_filter_options exact_host_urls tracker_url
      kScript "example.com" (Some 0%nat) (Some 1%nat)
      (world_with (service_with engine_A_never engine_B_cancels)
         true false)
    = (Returned false, w')
    /\ cells w' !! 0%nat = Some false
    /\ cells w' !! 1%nat = Some true.
Proof.
  destruct (@engine_B_explicit_cancel_blocks octal_filter_options
              exact_host_urls tracker_url kScript "example.com" 0%nat
              (Some 1%nat)
              (world_with (service_with engine_A_never engine_B_cancels)
                 true false)
              engine_B_cancels cancelling_rule None
              eq_refl eq_refl eq_refl eq_refl)
    as (w' & Hrun & _ & Hp & Hq).
  exists w'. split; [exact Hrun |]. split; [exact Hp |].
  apply (Hq 1%nat eq_refl). discriminate.
Defined.

Lemma no_block_reports_exception_witness :
  exists w',
    @ShouldStartRequest octal_filter_options exact_host_urls app_url
      kScript "example.com" (Some 0%nat) None
      (world_with (service_with engine_A_never engine_B_excepts)
         false false)
    = (Returned true, w')
    /\ cells w' !! 0%nat = Some true.
Proof.
  destruct (@no_block_reports_exception octal_filter_options
              exact_host_urls app_url kScript "example.com" (Some 0%nat)
              None
              (world_with (service_with engine_A_never engine_B_excepts)
                 false false)
              engine_B_excepts None (Some plain_rule)
              eq_refl eq_refl eq_refl)
    as (w' & Hrun & Hp & _).
  exists w'. split; [exact Hrun |].
  apply (Hp 0%nat eq_refl). discriminate.
Defined.

Lemma octal_party_flags_separate :
  @party_flags_separate octal_filter_options.
Proof.
  unfold party_flags_separate, resource_options; simpl.
  repeat split; try discriminate;
    repeat (apply List.Forall_cons; [split; reflexivity |]);
    apply List.Forall_nil.
Defined.

Lemma party_classification_witness :
  has_flag (@current_option octal_filter_options exact_host_urls app_url
              kScript "example.com") 16384 = true
  /\ has_flag (@current_option octal_filter_options exact_host_urls
                 tracker_url kScript "example.com") 8192 = true.
Proof.
  split.
  - exact (proj1 (@party_classification octal_filter_options
                    exact_host_urls app_url kScript "example.com"
                    octal_party_flags_separate)).
  - exact (proj1 (proj2 (@party_classification octal_filter_options
                           exact_host_urls tracker_url kScript
                           "example.com" octal_party_flags_separate))).
Defined.

(** *** The examples of the specification *)

(** Engine A reports a match: the request is not allowed, and Engine B is
    not asked. *)
Example tracker_blocked_by_engine_A :
  let run :=
    @ShouldStartRequest octal_filter_options exact_host_urls tracker_url
      kScript "example.com" (Some 0%nat) (Some 1%nat)
      (world_with (service_with engine_A_always engine_B_silent)
         false false) in
  fst run = Returned false /\ length (engine_calls (snd run)) = 1%nat.
Proof. split; reflexivity. Qed.

(** Engine A reports nothing, Engine B blocks by a rule without explicit
    cancel: not allowed, and the cancel cell stays [false]. *)
Example tracker_blocked_by_engine_B :
  let run :=
    @ShouldStartRequest octal_filter_options exact_host_urls tracker_url
      kScript "example.com" (Some 0%nat) (Some 1%nat)
      (world_with (service_with engine_A_never engine_B_blocks)
         false false) in
  fst run = Returned false
  /\ verdict_read false (snd run) 0%nat 1%nat
     = Some {| allow := false; matchedException := false;
               explicitCancel := false |}.
Proof. split; reflexivity. Qed.

(** Neither engine reports anything for a same-host script: allowed, no
    exception, and the request is classified not-third-party. *)
Example app_script_allowed :
  let run :=
    @ShouldStartRequest octal_filter_options exact_host_urls app_url
      kScript "example.com" (Some 0%nat) (Some 1%nat)
      (world_with (service_with engine_A_never engine_B_silent)
         false false) in
  fst run = Returned true
  /\ verdict_read true (snd run) 0%nat 1%nat
     = Some {| allow := true; matchedException := false;
               explicitCancel := false |}
  /\ has_flag (@current_option octal_filter_options exact_host_urls
                 app_url kScript "example.com")
       (@FONotThirdParty octal_filter_options) = true.
Proof. repeat split; reflexivity. Qed.

End AdBlockProofs.

(** * Properties of the bookmark order comparison *)

Module BookmarkOrderProofs.
Import Base BookmarkOrder.
Local Open Scope string_scope.
Local Open Scope Z_scope.

(** *** Digits *)

Lemma digit_code c :
  IsAsciiDigit c = true -> (48 <= nat_of_ascii c <= 57)%nat.
Proof.
  unfold IsAsciiDigit. intros Hd.
  apply andb_true_iff in Hd as [H1 H2].
  apply Nat.leb_le in H1, H2. lia.
Qed.

Lemma digit_not_whitespace c :
  IsAsciiDigit c = true -> IsWhitespace c = false.
Proof.
  intros Hd. apply digit_code in Hd. unfold IsWhitespace.
  apply orb_false_iff. split.
  - apply andb_false_iff. right. apply Nat.leb_gt. lia.
  - apply Nat.eqb_neq. lia.
Qed.

Lemma digit_not_char c (other : ascii) :
  IsAsciiDigit c = true ->
  (nat_of_ascii other < 48)%nat ->
  Ascii.eqb c other = false.
Proof.
  intros Hd Ho. apply digit_code in Hd. apply Ascii.eqb_neq.
  intros ->. lia.
Qed.

Lemma digit_value_range c :
  IsAsciiDigit c = true -> 0 <= DigitValue c <= 9.
Proof. intros Hd. apply digit_code in Hd. unfold DigitValue. lia. Qed.

Lemma decimal_value_from_ge s : forall acc,
  forallb IsAsciiDigit s = true -> 0 <= acc ->
  acc <= decimal_value_from acc s.
Proof.
  induction s as [|c s IH]; intros acc Hs Hacc; simpl in *; [lia |].
  apply andb_true_iff in Hs as [Hc Hs].
  pose proof (digit_value_range c Hc) as Hd.
  specialize (IH (acc * 10 + DigitValue c) Hs). lia.
Qed.

(** *** Number parsing on digit strings *)

Lemma positive_digits_value s : forall acc,
  forallb IsAsciiDigit s = true -> 0 <= acc ->
  decimal_value_from acc s <= INT_MAX ->
  positive_digits false acc s = (true, decimal_value_from acc s).
Proof.
  induction s as [|c s IH]; intros acc Hs Hacc Hmax; simpl in *;
    [reflexivity |].
  apply andb_true_iff in Hs as [Hc Hs]. rewrite Hc. simpl.
  pose proof (digit_value_range c Hc) as Hd.
  pose proof (decimal_value_from_ge s (acc * 10 + DigitValue c) Hs) as Hge.
  assert (Hfit : acc * 10 + DigitValue c <= 2147483647)
    by (unfold INT_MAX in Hmax; lia).
  change (INT_MAX / 10) with 214748364.
  change (INT_MAX mod 10) with 7.
  destruct (214748364 <? acc) eqn:E1; [apply Z.ltb_lt in E1; lia |].
  destruct (acc =? 214748364) eqn:E2; simpl.
  - destruct (7 <? DigitValue c) eqn:E3.
    + apply Z.eqb_eq in E2. apply Z.ltb_lt in E3. lia.
    + apply IH; [assumption | lia | assumption].
  - apply IH; [assumption | lia | assumption].
Qed.

Lemma drop_leading_digits s :
  forallb IsAsciiDigit s = true ->
  drop_leading IsWhitespace s = s.
Proof.
  destruct s as [|c s]; simpl; [reflexivity |].
  intros Hs. apply andb_true_iff in Hs as [Hc _].
  rewrite (digit_not_whitespace c Hc). reflexivity.
Qed.

Lemma StringToInt_component c :
  is_order_component c = true ->
  StringToInt c = (true, decimal_value c) /\ 0 <= decimal_value c.
Proof.
  unfold is_order_component, is_decimal, decimal_value, StringToInt.
  intros Hc. apply andb_true_iff in Hc as [Hdec Hmax].
  apply andb_true_iff in Hdec as [Hne Hs]. apply Z.leb_le in Hmax.
  rewrite (drop_leading_digits _ Hs), Nat.eqb_refl.
  destruct (list_ascii_of_string c) as [|ch rest]; [discriminate |].
  pose proof Hs as Hs'. simpl in Hs'.
  apply andb_true_iff in Hs' as [Hch Hrest].
  rewrite (digit_not_char ch "-" Hch) by (vm_compute; lia).
  rewrite (digit_not_char ch "+" Hch) by (vm_compute; lia).
  split.
  - simpl. rewrite Hch. simpl. simpl in Hmax.
    rewrite positive_digits_value; try assumption.
    + reflexivity.
    + pose proof (digit_value_range ch Hch). lia.
  - apply (decimal_value_from_ge (ch :: rest) 0 Hs). lia.
Qed.

Lemma check_ints_components cs :
  Forall (fun c => is_order_component c = true) cs ->
  check_ints cs = Some (map decimal_value cs).
Proof.
  induction 1 as [|c cs Hc _ IH]; simpl; [reflexivity |].
  destruct (StringToInt_component c Hc) as [-> Hpos]. simpl.
  apply Z.leb_le in Hpos. rewrite Hpos. simpl. rewrite IH. reflexivity.
Qed.

(** *** Splitting a dotted string *)

Lemma list_ascii_of_append (a b : string) :
  list_ascii_of_string (a ++ b)
  = (list_ascii_of_string a ++ list_ascii_of_string b)%list.
Proof. induction a as [|c a IH]; simpl; [| rewrite IH]; reflexivity. Qed.

Lemma pieces_digits a : forall s cur,
  forallb IsAsciiDigit a = true ->
  pieces ["."%char] (a ++ s)%list cur
  = pieces ["."%char] s (rev a ++ cur)%list.
Proof.
  induction a as [|c a IH]; intros s cur Ha; simpl in *; [reflexivity |].
  apply andb_true_iff in Ha as [Hc Ha].
  rewrite (digit_not_char c "." Hc) by (vm_compute; lia). simpl.
  rewrite IH by assumption. rewrite <- app_assoc. reflexivity.
Qed.

Lemma pieces_dot s cur :
  pieces ["."%char] ("."%char :: s) cur
  = rev cur :: pieces ["."%char] s [].
Proof. reflexivity. Qed.

Lemma is_decimal_digits c :
  is_decimal c = true ->
  forallb IsAsciiDigit (list_ascii_of_string c) = true
  /\ list_ascii_of_string c <> [].
Proof.
  unfold is_decimal. intros Hc. apply andb_true_iff in Hc as [Hne Hs].
  split; [assumption |].
  destruct (list_ascii_of_string c); [discriminate | congruence].
Qed.

Lemma pieces_join cs : forall c,
  Forall (fun c => is_decimal c = true) (c :: cs) ->
  pieces ["."%char] (list_ascii_of_string (join_dots (c :: cs))) []
  = map list_ascii_of_string (c :: cs).
Proof.
  induction cs as [|c' cs IH]; intros c Hall.
  - simpl. apply List.Forall_inv in Hall.
    destruct (is_decimal_digits c Hall) as [Hd _].
    rewrite <- (app_nil_r (list_ascii_of_string c)) at 1.
    rewrite pieces_digits by assumption. simpl.
    rewrite app_nil_r, rev_involutive. reflexivity.
  - change (join_dots (c :: c' :: cs))
      with (c ++ "." ++ join_dots (c' :: cs)).
    pose proof (List.Forall_inv Hall) as Hc.
    pose proof (List.Forall_inv_tail Hall) as Hrest.
    destruct (is_decimal_digits c Hc) as [Hd _].
    rewrite !list_ascii_of_append, pieces_digits by assumption.
    change (list_ascii_of_string ".") with ["."%char].
    change (["."%char] ++ ?t)%list with ("."%char :: t).
    rewrite pieces_dot, app_nil_r, rev_involutive, (IH c' Hrest).
    reflexivity.
Qed.

Lemma TrimWhitespace_digits a :
  forallb IsAsciiDigit a = true -> TrimWhitespace a = a.
Proof.
  intros Ha. unfold TrimWhitespace.
  rewrite (drop_leading_digits a Ha), drop_leading_digits.
  - apply rev_involutive.
  - apply forallb_forall. intros x Hx. apply in_rev in Hx.
    exact (proj1 (forallb_forall _ _) Ha x Hx).
Qed.

(** Splitting the dotted string gives its components back. *)
Lemma SplitString_join cs :
  Forall (fun c => is_decimal c = true) cs ->
  SplitString (join_dots cs) "." TRIM_WHITESPACE SPLIT_WANT_NONEMPTY = cs.
Proof.
  intros Hall. destruct cs as [|c cs]; [reflexivity |].
  unfold SplitString.
  destruct (list_ascii_of_string (join_dots (c :: cs))) as [|x xs] eqn:E.
  { exfalso. destruct (is_decimal_digits c (List.Forall_inv Hall)) as [_ Hne].
    destruct cs as [|c' cs]; simpl in E; [congruence |].
    rewrite list_ascii_of_append in E.
    destruct (list_ascii_of_string c); [congruence | discriminate]. }
  rewrite <- E. change (list_ascii_of_string ".") with ["."%char].
  rewrite (pieces_join cs c Hall). clear E x xs.
  induction Hall as [|d ds Hd _ IH]; [reflexivity |].
  destruct (is_decimal_digits d Hd) as [Hdig Hne].
  cbn [map List.filter]. rewrite (TrimWhitespace_digits _ Hdig).
  destruct (list_ascii_of_string d) as [|y ys] eqn:Ed; [congruence |].
  cbn [is_nil negb map]. rewrite <- Ed, string_of_list_ascii_of_string.
  f_equal. exact IH.
Qed.

Lemma is_order_component_decimal cs :
  Forall (fun c => is_order_component c = true) cs ->
  Forall (fun c => is_decimal c = true) cs.
Proof.
  apply List.Forall_impl. intros c Hc. unfold is_order_component in Hc.
  apply andb_true_iff in Hc. tauto.
Qed.

(** The parser reads a dotted string as the values of its components. *)
Lemma OrderToIntVect_join cs :
  Forall (fun c => is_order_component c = true) cs ->
  OrderToIntVect (join_dots cs) = Some (map decimal_value cs).
Proof.
  intros Hall. unfold OrderToIntVect.
  rewrite (SplitString_join cs (is_order_component_decimal cs Hall)).
  exact (check_ints_components cs Hall).
Qed.

(** *** The comparison *)

Lemma lexicographical_compare_lex_lt l : forall r,
  lexicographical_compare l r = true <-> lex_lt l r.
Proof.
  induction l as [|x l IH]; intros [|y r]; simpl.
  - split; [discriminate | inversion 1].
  - split; [intros _; constructor | reflexivity].
  - split; [discriminate | inversion 1].
  - destruct (x <? y) eqn:Exy.
    { apply Z.ltb_lt in Exy. split; [intros _ | reflexivity].
      now apply lex_lt_head. }
    apply Z.ltb_ge in Exy.
    destruct (y <? x) eqn:Eyx.
    { apply Z.ltb_lt in Eyx. split; [discriminate |].
      inversion 1; subst; lia. }
    apply Z.ltb_ge in Eyx. assert (x = y) by lia. subst y.
    rewrite IH. split.
    + apply lex_lt_tail.
    + inversion 1; subst; [lia | assumption].
Qed.

Lemma lex_lt_irreflexive l : ~ lex_lt l l.
Proof.
  induction l as [|x l IH]; inversion 1; subst; [lia | contradiction].
Qed.

(** C10: for order strings whose dot-separated components are
    non-negative decimal integers that fit [int] (at most 2147483647),
    [CompareOrder] returns, and it returns [true] exactly when the
    integer vector of the left string is strictly lexicographically
    less than the one of the right string. *)
Theorem CompareOrder_numeric (left right : list string) :
  Forall (fun c => is_order_component c = true) left ->
  Forall (fun c => is_order_component c = true) right ->
  exists b,
    CompareOrder (join_dots left) (join_dots right) = Some b
    /\ (b = true
        <-> lex_lt (map decimal_value left) (map decimal_value right)).
Proof.
  intros Hl Hr. unfold CompareOrder.
  rewrite (OrderToIntVect_join left Hl), (OrderToIntVect_join right Hr).
  eexists. split; [reflexivity |].
  apply lexicographical_compare_lex_lt.
Qed.

Lemma CompareOrder_numeric_witness :
  exists b,
    CompareOrder "1.2" "1.10" = Some b
    /\ (b = true <-> lex_lt [1; 2] [1; 10]).
Proof.
  apply (CompareOrder_numeric ["1"; "2"] ["1"; "10"]);
    repeat (apply List.Forall_cons; [reflexivity |]); apply List.Forall_nil.
Defined.

(** C10, as first stated, fails: a component beyond [INT_MAX] is a
    non-negative decimal integer, and the left vector is below the right
    one, yet the comparison does not return [true]: the parser stops at
    its [CHECK]. *)
Lemma CompareOrder_overflow_counterexample :
  Forall (fun c => is_decimal c = true) ["1"]
  /\ Forall (fun c => is_decimal c = true) ["2147483648"]
  /\ lex_lt (map decimal_value ["1"]) (map decimal_value ["2147483648"])
  /\ StringToInt "2147483648" = (false, INT_MAX)
  /\ CompareOrder (join_dots ["1"]) (join_dots ["2147483648"]) = None
  /\ CompareOrder (join_dots ["1"]) (join_dots ["2147483648"])
     <> Some true.
Proof.
  repeat split;
    try (repeat (apply List.Forall_cons; [reflexivity |]);
         apply List.Forall_nil);
    try reflexivity; try discriminate.
  apply lex_lt_head. reflexivity.
Qed.

(** The comparison is numeric: 2 is below 10 although "2" is above "10"
    as text. *)
Example CompareOrder_1_2_below_1_10 :
  CompareOrder "1.2" "1.10" = Some true
  /\ CompareOrder "1.10" "1.2" = Some false.
Proof. split; reflexivity. Qed.

(** No order string is below itself. *)
Lemma CompareOrder_irreflexive (cs : list string) :
  Forall (fun c => is_order_component c = true) cs ->
  CompareOrder (join_dots cs) (join_dots cs) = Some false.
Proof.
  intros Hall. unfold CompareOrder. rewrite (OrderToIntVect_join cs Hall).
  f_equal. apply not_true_is_false. intros Hlt.
  apply lexicographical_compare_lex_lt in Hlt.
  exact (lex_lt_irreflexive _ Hlt).
Qed.

End BookmarkOrderProofs.

(** * Further properties of the ad-block base service *)

Module AdBlockLaws.
Import AdBlock AdBlockProofs.
Local Open Scope string_scope.

Section Evaluation.
Context `{FilterOptionEnum} `{UrlLibrary}.

(** X1: a request is allowed exactly when Engine A reports no match and
    Engine B, being there, reports none either; it is refused exactly
    when Engine A reports a match, or Engine B does and
    [did_match_exception] is not null. *)
Theorem allowed_iff_no_engine_hit
    (url : GURL) (resource_type : ResourceType) (tab_host : string)
    (did_match_exception cancel_request_explicitly : option loc)
    (w : World) :
  let outcome :=
    fst (ShouldStartRequest url resource_type tab_host did_match_exception
           cancel_request_explicitly w) in
  (outcome = Returned true
   <-> engine_A_hit url resource_type tab_host w = false
       /\ exists b mf mef,
            ad_block_client_ (service w) = Some b
            /\ engine_B_answer url resource_type tab_host b
               = (false, mf, mef))
  /\ (outcome = Returned false
      <-> engine_A_hit url resource_type tab_host w = true
          \/ (did_match_exception <> None
              /\ exists b mf mef,
                   ad_block_client_ (service w) = Some b
                   /\ engine_B_answer url resource_type tab_host b
                      = (true, mf, mef))).
Proof.
  simpl.
  destruct (run_cases url resource_type tab_host did_match_exception
              cancel_request_explicitly w)
    as [[HA E] | [(HA & HB & E) | [(b & mf & mef & HA & HB & Hm & E)
                                  | (b & mf & mef & HA & HB & Hm & E)]]].
  - rewrite E; simpl. split; split; intros X; try discriminate X; auto.
    destruct X as [HA' _]. congruence.
  - rewrite E; simpl. split; split; intros X; try discriminate X.
    + destruct X as (_ & b & mf & mef & HB' & _). congruence.
    + destruct X as [HA' | (_ & b & mf & mef & HB' & _)]; congruence.
  - destruct E as [(p & Hp & E) | (Hp & cs & E)]; rewrite E; simpl;
      split; split; intros X; try discriminate X.
    + destruct X as (_ & b' & mf' & mef' & HB' & Hm').
      rewrite HB in HB'. injection HB' as <-. congruence.
    + right. split; [congruence |]. exists b, mf, mef. auto.
    + reflexivity.
    + destruct X as (_ & b' & mf' & mef' & HB' & Hm').
      rewrite HB in HB'. injection HB' as <-. congruence.
    + destruct X as [HA' | [Hn _]]; congruence.
  - rewrite E; simpl. split; split; intros X; try discriminate X.
    + split; [exact HA |]. exists b, mf, mef. auto.
    + reflexivity.
    + destruct X as [HA' | (_ & b' & mf' & mef' & HB' & Hm')];
        [congruence |].
      rewrite HB in HB'. injection HB' as <-. congruence.
Qed.

(** X2: a block by Engine A does not depend on Engine B: whatever engine
    (or none) and buffer the service holds, the call returns [false],
    invokes Engine A alone and leaves every cell as it was. *)
Theorem engine_A_block_ignores_engine_B
    (url : GURL) (resource_type : ResourceType) (tab_host : string)
    (did_match_exception cancel_request_explicitly : option loc)
    (w : World) (client : option AdBlockClient)
    (buffer : DATFileDataBuffer) :
  engine_A_hit url resource_type tab_host w = true ->
  let other := with_service w (updated (service w) client buffer) in
  let run :=
    ShouldStartRequest url resource_type tab_host did_match_exception
      cancel_request_explicitly other in
  fst run = Returned false
  /\ cells (snd run) = cells w
  /\ engine_calls (snd run)
     = (engine_calls w ++ [call_A url resource_type tab_host])%list.
Proof.
  intros HA other run. subst run.
  rewrite (run_engine_A_hit url resource_type tab_host did_match_exception
             cancel_request_explicitly other HA).
  repeat split.
Qed.

(** X3: an evaluation writes through its two out-pointers only: every
    cell that neither of them designates holds afterwards what it held
    before, however the call ends. *)
Theorem evaluation_writes_out_cells_only
    (url : GURL) (resource_type : ResourceType) (tab_host : string)
    (did_match_exception cancel_request_explicitly : option loc)
    (w : World) (r : loc) :
  did_match_exception <> Some r ->
  cancel_request_explicitly <> Some r ->
  cells (snd (ShouldStartRequest url resource_type tab_host
                did_match_exception cancel_request_explicitly w)) !! r
  = cells w !! r.
Proof.
  intros Hd Hc. run_monad.
  destruct (Matches _ _ _ _); [reflexivity |].
  destruct (ad_block_client_ (service w)) as [b|]; [| reflexivity].
  simpl. destruct (matches b _ _ _) as [[hit mf] mef].
  destruct hit.
  - destruct mf as [f|], cancel_request_explicitly as [q|],
      did_match_exception as [p|]; simpl;
      try destruct (Z.eqb (Z.land (filterOption f) FOExplicitCancel) 0);
      simpl; rewrite ?lookup_insert_ne by congruence; reflexivity.
  - destruct did_match_exception as [p|]; simpl;
      rewrite ?lookup_insert_ne by congruence; reflexivity.
Qed.

(** X4: [*cancel_request_explicitly] is written in one situation only,
    and then with [true]: Engine B blocks, after Engine A let the request
    pass, by a rule carrying [FOExplicitCancel]; in every other run the
    cell keeps its value, so the call never clears it.  The cell is taken
    to be distinct from the one of [did_match_exception]. *)
Theorem explicit_cancel_written_only_when_due
    (url : GURL) (resource_type : ResourceType) (tab_host : string)
    (did_match_exception : option loc) (q : loc) (w : World) :
  did_match_exception <> Some q ->
  cells (snd (ShouldStartRequest url resource_type tab_host
                did_match_exception (Some q) w)) !! q
  = if explicit_cancel_due url resource_type tab_host w
    then Some true
    else cells w !! q.
Proof.
  intros Hd. unfold explicit_cancel_due, engine_A_hit, engine_B_answer,
    carries_explicit_cancel.
  run_monad.
  destruct (Matches _ _ _ _); [reflexivity |]. simpl.
  destruct (ad_block_client_ (service w)) as [b|]; [| reflexivity].
  simpl. destruct (matches b _ _ _) as [[hit mf] mef].
  destruct hit.
  - destruct mf as [f|], did_match_exception as [p|]; simpl;
      try destruct (Z.eqb (Z.land (filterOption f) FOExplicitCancel) 0);
      simpl; rewrite ?lookup_insert_ne by congruence;
      rewrite ?lookup_insert_eq; reflexivity.
  - destruct did_match_exception as [p|]; simpl;
      rewrite ?lookup_insert_ne by congruence; reflexivity.
Qed.

(** X5: the two resource-type tables sort the types alike: two resource
    types that Engine A is given the same type string for are given the
    same filter option for Engine B. *)
Theorem resource_type_tables_agree (r1 r2 : ResourceType) :
  ResourceTypeToString r1 = ResourceTypeToString r2 ->
  ResourceTypeToFilterOption r1 = ResourceTypeToFilterOption r2.
Proof.
  destruct r1, r2; simpl; intros E; try reflexivity; discriminate E.
Qed.

Lemma land_zero_bits a b n :
  Z.land a b = 0 -> Z.testbit a n = true -> Z.testbit b n = false.
Proof.
  intros Hab Ha.
  assert (Hn : Z.testbit (Z.land a b) n = false)
    by (rewrite Hab; apply Z.bits_0).
  rewrite Z.land_spec, Ha in Hn. exact Hn.
Qed.

(** X6: the option bitset can be taken apart again: with the two party
    bits masked out it is the resource-type option, so the pair of
    resource-type option and party flag is recovered from the bitset that
    Engine B receives. *)
Theorem current_option_keeps_resource_option
    (url : GURL) (resource_type : ResourceType) (tab_host : string) :
  party_flags_separate ->
  Z.land (current_option url resource_type tab_host)
    (Z.lnot (Z.lor FOThirdParty FONotThirdParty))
  = ResourceTypeToFilterOption resource_type.
Proof.
  intros (_ & _ & _ & Hres).
  assert (Hr : Z.land (ResourceTypeToFilterOption resource_type)
                 FOThirdParty = 0
               /\ Z.land (ResourceTypeToFilterOption resource_type)
                    FONotThirdParty = 0).
  { rewrite List.Forall_forall in Hres. apply Hres.
    unfold resource_options. destruct resource_type; simpl; tauto. }
  destruct Hr as [Hr1 Hr2].
  apply Z.bits_inj'. intros n Hn.
  rewrite Z.land_spec, Z.lnot_spec, Z.lor_spec by assumption.
  unfold current_option.
  destruct (SameDomainOrHost url _ INCLUDE_PRIVATE_REGISTRIES);
    rewrite Z.lor_spec;
    destruct (Z.testbit (ResourceTypeToFilterOption resource_type) n)
      eqn:Er; simpl.
  - rewrite (land_zero_bits _ _ n Hr1 Er), (land_zero_bits _ _ n Hr2 Er).
    reflexivity.
  - destruct (Z.testbit FOThirdParty n), (Z.testbit FONotThirdParty n);
      reflexivity.
  - rewrite (land_zero_bits _ _ n Hr1 Er), (land_zero_bits _ _ n Hr2 Er).
    reflexivity.
  - destruct (Z.testbit FOThirdParty n), (Z.testbit FONotThirdParty n);
      reflexivity.
Qed.

End Evaluation.

(** *** Reloads and evaluations together *)

(** X7: the IO thread applies the pending updates in the order they were
    posted: after it ran, the service holds the engine and the buffer of
    the update posted last, Engine A is the one it was, and nothing is
    pending. *)
Theorem io_thread_leaves_last_update
    (ts : list IOTask) (client : option AdBlockClient)
    (buffer : DATFileDataBuffer) (w : World) :
  io_tasks w = (ts ++ [UpdateAdBlockClientTask client buffer])%list ->
  let run := RunIOThread w in
  fst run = Returned tt
  /\ service (snd run) = updated (service w) client buffer
  /\ io_tasks (snd run) = [].
Proof.
  intros Hq. unfold RunIOThread, take_io_tasks, mbind, M_bind; simpl.
  rewrite Hq, run_io_tasks_last. repeat split.
Qed.

Section Reload.
Context `{FilterOptionEnum} `{UrlLibrary}.

Variables (url : GURL) (resource_type : ResourceType) (tab_host : string).
Variables (did_match_exception cancel_request_explicitly : option loc).

Local Abbreviation evaluate :=
  (ShouldStartRequest url resource_type tab_host did_match_exception
     cancel_request_explicitly).

(** An evaluation neither reads nor writes the error log. *)
Lemma evaluation_carries_log (w : World) (l : list string) :
  let relog (v : World) :=
    {| service := service v; cells := cells v;
       engine_calls := engine_calls v; io_tasks := io_tasks v;
       error_log := l |} in
  evaluate (relog w) = (fst (evaluate w), relog (snd (evaluate w))).
Proof.
  simpl. run_monad.
  destruct (Matches _ _ _ _); [reflexivity |].
  destruct (ad_block_client_ (service w)) as [b|]; [| reflexivity].
  simpl. destruct (matches b _ _ _) as [[hit mf] mef].
  destruct hit.
  - destruct mf as [f|], cancel_request_explicitly as [q|],
      did_match_exception as [p|]; simpl;
      try destruct (Z.eqb (Z.land (filterOption f) FOExplicitCancel) 0);
      reflexivity.
  - destruct did_match_exception as [p|]; reflexivity.
Qed.

(** The IO thread's run and an evaluation after it carry the error log
    along untouched. *)
Lemma run_then_evaluate_carries_log (w : World) (l : list string) :
  (RunIOThread;; evaluate) (with_error_log w l)
  = (fst ((RunIOThread;; evaluate) w),
     with_error_log (snd ((RunIOThread;; evaluate) w)) l).
Proof.
  rewrite !run_bind, RunIOThread_carries_log.
  destruct (RunIOThread w) as [[[]|f] w1]; simpl; [| reflexivity].
  exact (evaluation_carries_log w1 l).
Qed.

(** A completed load of an engine with a non-empty buffer, then the IO
    thread: whatever was pending, the new engine and buffer are in
    place and nothing is pending. *)
Lemma reload_then_run (client : AdBlockClient) (byte : Byte.byte)
    (buffer : DATFileDataBuffer) (w : World) :
  (OnGetDATFileData (Some client, byte :: buffer);; RunIOThread) w
  = (Returned tt,
     with_service (drained w)
       (updated (service w) (Some client) (byte :: buffer))).
Proof.
  rewrite run_bind.
  change (OnGetDATFileData (Some client, byte :: buffer) w)
    with (PostTask (UpdateAdBlockClientTask (Some client)
                      (byte :: buffer)) w).
  unfold PostTask at 1. cbv iota.
  unfold RunIOThread, take_io_tasks. rewrite run_bind. cbv iota.
  exact (run_io_tasks_last (io_tasks w) (drained w) (Some client)
           (byte :: buffer)).
Qed.

(** X8: once a load that brought an engine and a non-empty buffer has
    completed and the IO thread has run, a request is evaluated against
    the new engine: the run is the one of a service that held the new
    engine and buffer from the start with nothing pending, whatever
    Engine B was there before and whatever updates were pending when the
    load completed. *)
Theorem evaluation_after_reload
    (client : AdBlockClient) (buffer : DATFileDataBuffer) (w : World) :
  buffer <> [] ->
  (OnGetDATFileData (Some client, buffer);; RunIOThread;; evaluate) w
  = evaluate
      (with_service (drained w)
         (updated (service w) (Some client) buffer)).
Proof.
  intros Hb. destruct buffer as [|byte buffer]; [congruence |].
  refine (eq_trans
            (run_bind_assoc
               (OnGetDATFileData (Some client, byte :: buffer))
               (fun _ => RunIOThread) (fun _ => evaluate) w) _).
  rewrite run_bind, reload_then_run. reflexivity.
Qed.

(** X9: a load that failed (empty buffer, or no engine) changes no
    verdict, whatever updates are pending: after it, and after the IO
    thread has run, a request gets the outcome, the cells and the engine
    invocations it would have got after the IO thread's run without the
    load, from the same service; the load left one line in the error
    log. *)
Theorem evaluation_after_failed_reload
    (result : GetDATFileDataResult) (w : World) :
  snd result = [] \/ fst result = None ->
  let after :=
    (OnGetDATFileData result;; RunIOThread;; evaluate) w in
  let plain := (RunIOThread;; evaluate) w in
  fst after = fst plain
  /\ cells (snd after) = cells (snd plain)
  /\ engine_calls (snd after) = engine_calls (snd plain)
  /\ service (snd after) = service (snd plain)
  /\ io_tasks (snd after) = io_tasks (snd plain)
  /\ length (error_log (snd after)) = S (length (error_log (snd plain))).
Proof.
  intros Hbad.
  assert (Hload : exists msg,
            OnGetDATFileData result w
            = (Returned tt,
               with_error_log w (error_log w ++ [msg])%list)).
  { destruct result as [[client|] [|byte buffer]];
      try (destruct Hbad; discriminate);
      eexists; reflexivity. }
  destruct Hload as [msg Hload].
  assert (Hafter :
            (OnGetDATFileData result;; RunIOThread;; evaluate) w
            = (fst ((RunIOThread;; evaluate) w),
               with_error_log (snd ((RunIOThread;; evaluate) w))
                 (error_log w ++ [msg])%list)).
  { rewrite run_bind, Hload.
    exact (run_then_evaluate_carries_log w _). }
  assert (Hlog : error_log (snd ((RunIOThread;; evaluate) w))
                 = error_log w).
  { pose proof (run_then_evaluate_carries_log w (error_log w)) as E.
    replace (with_error_log w (error_log w)) with w in E
      by (destruct w; reflexivity).
    rewrite E at 1. reflexivity. }
  pose proof (f_equal fst Hafter) as H1.
  pose proof (f_equal snd Hafter) as H2. simpl in H1, H2.
  cbv zeta. split; [exact H1 |].
  split; [exact (f_equal cells H2) |].
  split; [exact (f_equal engine_calls H2) |].
  split; [exact (f_equal service H2) |].
  split; [exact (f_equal io_tasks H2) |].
  rewrite Hlog.
  transitivity (length (error_log w ++ [msg])%list).
  - exact (f_equal (fun v => length (error_log v)) H2).
  - rewrite length_app. simpl. lia.
Qed.

(** Each operation keeps Engine B ready and Engine A in place. *)
Lemma perform_keeps_ready (op : Operation) (w : World) :
  engine_B_ready w ->
  engine_B_ready (snd (perform op w))
  /\ ad_block_client2_ (service (snd (perform op w)))
     = ad_block_client2_ (service w)
  /\ fst (perform op w) <> Crashed NullAdBlockClient.
Proof.
  intros [Hb Hts]. destruct op as [result | | u r t d c]; simpl.
  - destruct result as [[client|] [|byte buffer]]; run_reload;
      unfold engine_B_ready; simpl; repeat split; auto; try discriminate.
    apply Forall_app. split; [exact Hts |].
    apply List.Forall_cons; [reflexivity | apply List.Forall_nil].
  - unfold RunIOThread, take_io_tasks, mbind, M_bind; simpl.
    destruct (run_io_tasks_result (io_tasks w)
                {| service := service w; cells := cells w;
                   engine_calls := engine_calls w; io_tasks := [];
                   error_log := error_log w |})
      as (s & Hrun & HA & HB).
    rewrite Hrun. unfold engine_B_ready; simpl.
    repeat split; auto; discriminate.
  - unfold mbind, M_bind.
    destruct (run_cases u r t d c w)
      as [[_ E] | [(_ & HB & E) | [(b & mf & mef & _ & _ & _ & E)
                                  | (b & mf & mef & _ & _ & _ & E)]]];
      try congruence;
      try (destruct E as [(p & _ & E) | (_ & cs' & E)]);
      rewrite E; unfold engine_B_ready; simpl;
      repeat split; auto; discriminate.
Qed.

Lemma perform_all_keeps_ready (ops : list Operation) : forall w : World,
  engine_B_ready w ->
  engine_B_ready (snd (perform_all ops w))
  /\ ad_block_client2_ (service (snd (perform_all ops w)))
     = ad_block_client2_ (service w)
  /\ fst (perform_all ops w) <> Crashed NullAdBlockClient.
Proof.
  induction ops as [|op ops IH]; intros w Hw.
  - simpl. repeat split; try apply Hw. discriminate.
  - destruct (perform_keeps_ready op w Hw) as (Hw' & HA & Hc).
    simpl. rewrite !(run_bind (perform op)).
    destruct (perform op w) as [[[]|f] w'] eqn:E; simpl in *.
    + destruct (IH w' Hw') as (Hw'' & HA' & Hc').
      split; [exact Hw'' | split; [exact (eq_trans HA' HA) | exact Hc']].
    + split; [exact Hw' | split; [exact HA | exact Hc]].
Qed.

(** X10: Engine B, once there, stays there: over every sequence of
    completed loads, IO-thread runs and request evaluations, from a
    service that holds an Engine B and has only complete updates pending,
    the service keeps holding some Engine B, Engine A is never replaced,
    and no evaluation finds the Engine B pointer null. *)
Theorem engine_B_stays_ready (ops : list Operation) (w : World) :
  engine_B_ready w ->
  engine_B_ready (snd (perform_all ops w))
  /\ ad_block_client2_ (service (snd (perform_all ops w)))
     = ad_block_client2_ (service w)
  /\ fst (perform_all ops w) <> Crashed NullAdBlockClient.
Proof. exact (perform_all_keeps_ready ops w). Qed.

(** X11: from its construction on, whatever loads complete, IO-thread
    runs and evaluations follow, the service's Engine A is the blocker
    built from the one rule "||brianbondy.com", an Engine B is in place,
    and no evaluation finds the Engine B pointer null. *)
Theorem constructed_engines_persist
    (new_AdBlockClient : AdBlockClient) (new_Blocker : string -> Blocker)
    (cs : gmap loc bool) (ops : list Operation) :
  let run :=
    perform_all ops (started (construct new_AdBlockClient new_Blocker) cs)
  in
  ad_block_client2_ (service (snd run)) = new_Blocker "||brianbondy.com"
  /\ ad_block_client_ (service (snd run)) <> None
  /\ fst run <> Crashed NullAdBlockClient.
Proof.
  assert (Hw : engine_B_ready
                 (started (construct new_AdBlockClient new_Blocker) cs))
    by (split; [discriminate | apply List.Forall_nil]).
  destruct (perform_all_keeps_ready ops _ Hw) as ([Hb _] & HA & Hc).
  simpl. repeat split; assumption.
Qed.

End Reload.

(** *** The properties on concrete requests *)

Lemma engine_A_block_ignores_engine_B_witness :
  let w := world_with (service_with engine_A_always engine_B_silent)
             true true in
  let run :=
    @ShouldStartRequest octal_filter_options exact_host_urls tracker_url
      kScript "example.com" (Some 0%nat) (Some 1%nat)
      (with_service w (updated (service w) None [])) in
  fst run = Returned false /\ cells (snd run) = cells w.
Proof.
  intros w.
  destruct (@engine_A_block_ignores_engine_B octal_filter_options
              exact_host_urls tracker_url kScript "example.com"
              (Some 0%nat) (Some 1%nat) w None [] eq_refl)
    as (Hret & Hcells & _).
  split; [exact Hret | exact Hcells].
Defined.

Lemma evaluation_writes_out_cells_only_witness :
  cells (snd (@ShouldStartRequest octal_filter_options exact_host_urls
                tracker_url kScript "example.com" (Some 0%nat) None
                (world_with (service_with engine_A_never engine_B_cancels)
                   true true))) !! 1%nat
  = Some true.
Proof.
  apply (@evaluation_writes_out_cells_only octal_filter_options
           exact_host_urls tracker_url kScript "example.com" (Some 0%nat)
           None
           (world_with (service_with engine_A_never engine_B_cancels)
              true true) 1%nat); discriminate.
Defined.

Lemma explicit_cancel_written_only_when_due_witness :
  cells (snd (@ShouldStartRequest octal_filter_options exact_host_urls
                tracker_url kScript "example.com" (Some 0%nat)
                (Some 1%nat)
                (world_with (service_with engine_A_never engine_B_blocks)
                   false true))) !! 1%nat
  = Some true.
Proof.
  apply (@explicit_cancel_written_only_when_due octal_filter_options
           exact_host_urls tracker_url kScript "example.com" (Some 0%nat)
           1%nat
           (world_with (service_with engine_A_never engine_B_blocks)
              false true)).
  discriminate.
Defined.

Lemma resource_type_tables_agree_witness :
  @ResourceTypeToFilterOption octal_filter_options kFavicon
  = @ResourceTypeToFilterOption octal_filter_options kImage.
Proof.
  apply (@resource_type_tables_agree octal_filter_options kFavicon kImage).
  reflexivity.
Defined.

Lemma current_option_keeps_resource_option_witness :
  Z.land (@current_option octal_filter_options exact_host_urls tracker_url
            kScript "example.com") (Z.lnot (Z.lor 8192 16384))
  = 1.
Proof.
  apply (@current_option_keeps_resource_option octal_filter_options
           exact_host_urls tracker_url kScript "example.com"
           octal_party_flags_separate).
Defined.

Lemma io_thread_leaves_last_update_witness :
  let w :=
    {| service := service_with engine_A_never engine_B_silent;
       cells := ∅; engine_calls := [];
       io_tasks := [UpdateAdBlockClientTask (Some engine_B_blocks)
                      [Byte.x41];
                    UpdateAdBlockClientTask (Some engine_B_excepts)
                      [Byte.x42]];
       error_log := [] |} in
  service (snd (RunIOThread w))
  = updated (service w) (Some engine_B_excepts) [Byte.x42].
Proof.
  intros w.
  exact (proj1 (proj2
           (io_thread_leaves_last_update
              [UpdateAdBlockClientTask (Some engine_B_blocks) [Byte.x41]]
              (Some engine_B_excepts) [Byte.x42] w eq_refl))).
Defined.

Lemma evaluation_after_reload_witness :
  let w :=
    {| service := service_with engine_A_never engine_B_silent;
       cells := ∅; engine_calls := [];
       io_tasks := [UpdateAdBlockClientTask (Some engine_B_excepts)
                      [Byte.x42]];
       error_log := [] |} in
  fst ((OnGetDATFileData (Some engine_B_blocks, [Byte.x41]);;
        RunIOThread;;
        @ShouldStartRequest octal_filter_options exact_host_urls
          tracker_url kScript "example.com" (Some 0%nat) (Some 1%nat)) w)
  = Returned false.
Proof.
  intros w.
  refine (eq_trans
            (f_equal fst
               (@evaluation_after_reload octal_filter_options
                  exact_host_urls tracker_url kScript "example.com"
                  (Some 0%nat) (Some 1%nat) engine_B_blocks [Byte.x41] w
                  _)) _);
    [discriminate | reflexivity].
Defined.

Lemma evaluation_after_failed_reload_witness :
  let w :=
    {| service := service_with engine_A_never engine_B_silent;
       cells := ∅; engine_calls := [];
       io_tasks := [UpdateAdBlockClientTask (Some engine_B_blocks)
                      [Byte.x41]];
       error_log := [] |} in
  fst ((OnGetDATFileData (None, [Byte.x42]);;
        RunIOThread;;
        @ShouldStartRequest octal_filter_options exact_host_urls
          tracker_url kScript "example.com" (Some 0%nat) (Some 1%nat)) w)
  = fst ((RunIOThread;;
          @ShouldStartRequest octal_filter_options exact_host_urls
            tracker_url kScript "example.com" (Some 0%nat) (Some 1%nat))
           w).
Proof.
  intros w.
  exact (proj1
           (@evaluation_after_failed_reload octal_filter_options
              exact_host_urls tracker_url kScript "example.com"
              (Some 0%nat) (Some 1%nat) (None, [Byte.x42]) w
              (or_intror eq_refl))).
Defined.

Lemma sample_world_ready :
  engine_B_ready
    (world_with (service_with engine_A_never engine_B_silent) false false).
Proof. split; [discriminate | apply List.Forall_nil]. Defined.

Lemma engine_B_stays_ready_witness :
  fst (@perform_all octal_filter_options exact_host_urls
         [LoadCompleted (None, [Byte.x41]);
          LoadCompleted (Some engine_B_blocks, [Byte.x41]);
          IOThreadRuns;
          RequestStarts tracker_url kScript "example.com" None None]
         (world_with (service_with engine_A_never engine_B_silent)
            false false))
  <> Crashed NullAdBlockClient.
Proof.
  exact (proj2 (proj2
           (@engine_B_stays_ready octal_filter_options exact_host_urls
              [LoadCompleted (None, [Byte.x41]);
               LoadCompleted (Some engine_B_blocks, [Byte.x41]);
               IOThreadRuns;
               RequestStarts tracker_url kScript "example.com" None None]
              (world_with (service_with engine_A_never engine_B_silent)
                 false false)
              sample_world_ready))).
Defined.

End AdBlockLaws.

(** * Further properties of the bookmark order comparison *)

Module BookmarkOrderLaws.
Import Base BookmarkOrder BookmarkOrderProofs.
Local Open Scope string_scope.
Local Open Scope Z_scope.

(** *** The comparison as an order *)

Lemma lex_lt_transitive a : forall b c,
  lex_lt a b -> lex_lt b c -> lex_lt a c.
Proof.
  induction a as [|x a IH]; intros b c Hab Hbc.
  - inversion Hab; subst. inversion Hbc; subst; constructor.
  - inversion Hab; subst; inversion Hbc; subst.
    + apply lex_lt_head. lia.
    + apply lex_lt_head. assumption.
    + apply lex_lt_head. assumption.
    + apply lex_lt_tail. eapply IH; eassumption.
Qed.

Lemma lexicographical_compare_equal l : forall r,
  lexicographical_compare l r = false ->
  lexicographical_compare r l = false ->
  l = r.
Proof.
  induction l as [|x l IH]; intros [|y r]; simpl; try discriminate;
    [reflexivity |].
  destruct (x <? y) eqn:Exy; [discriminate |].
  destruct (y <? x) eqn:Eyx; [discriminate |].
  apply Z.ltb_ge in Exy, Eyx. intros Hl Hr.
  assert (x = y) by lia. subst y. f_equal. apply IH; assumption.
Qed.

Lemma lexicographical_compare_prefix l : forall y r,
  lexicographical_compare l (l ++ y :: r) = true.
Proof.
  induction l as [|x l IH]; intros y r; simpl; [reflexivity |].
  rewrite Z.ltb_irrefl. apply IH.
Qed.

(** X12: the comparison is transitive on all strings: if [left] is below
    [middle] and [middle] below [right], then [left] is below [right]. *)
Theorem CompareOrder_transitive (left middle right : string) :
  CompareOrder left middle = Some true ->
  CompareOrder middle right = Some true ->
  CompareOrder left right = Some true.
Proof.
  unfold CompareOrder.
  destruct (OrderToIntVect left) as [vl|]; [| discriminate].
  destruct (OrderToIntVect middle) as [vm|]; [| discriminate].
  destruct (OrderToIntVect right) as [vr|]; [| discriminate].
  intros [= Hlm] [= Hmr]. f_equal.
  apply lexicographical_compare_lex_lt.
  apply lexicographical_compare_lex_lt in Hlm, Hmr.
  exact (lex_lt_transitive vl vm vr Hlm Hmr).
Qed.

Lemma CompareOrder_transitive_witness :
  CompareOrder "1.2" "2" = Some true.
Proof.
  apply (CompareOrder_transitive "1.2" "1.10" "2"); reflexivity.
Defined.

(** X13: two strings that both parse are in exactly one of three
    positions: the left one is below the right one and not the other way
    round, or the right one is below the left one and not the other way
    round, or neither is below the other, which happens exactly when
    they hold the same integer vector. *)
Theorem CompareOrder_trichotomy (left right : string) (vl vr : list Z) :
  OrderToIntVect left = Some vl ->
  OrderToIntVect right = Some vr ->
  (CompareOrder left right = Some true
   /\ CompareOrder right left = Some false /\ vl <> vr)
  \/ (CompareOrder left right = Some false
      /\ CompareOrder right left = Some true /\ vl <> vr)
  \/ (CompareOrder left right = Some false
      /\ CompareOrder right left = Some false /\ vl = vr).
Proof.
  intros Hl Hr. unfold CompareOrder. rewrite Hl, Hr.
  destruct (lexicographical_compare vl vr) eqn:Elr;
    destruct (lexicographical_compare vr vl) eqn:Erl.
  - exfalso. apply lexicographical_compare_lex_lt in Elr, Erl.
    exact (lex_lt_irreflexive vl (lex_lt_transitive vl vr vl Elr Erl)).
  - left. repeat split. intros ->.
    apply lexicographical_compare_lex_lt in Elr.
    exact (lex_lt_irreflexive vr Elr).
  - right. left. repeat split. intros ->.
    apply lexicographical_compare_lex_lt in Erl.
    exact (lex_lt_irreflexive vr Erl).
  - right. right. repeat split.
    exact (lexicographical_compare_equal vl vr Elr Erl).
Qed.

Lemma CompareOrder_trichotomy_witness :
  CompareOrder "01.2" "1.02" = Some false
  /\ CompareOrder "1.02" "01.2" = Some false.
Proof.
  destruct (CompareOrder_trichotomy "01.2" "1.02" [1; 2] [1; 2]
              eq_refl eq_refl)
    as [(H1 & _) | [(_ & H2 & _) | (H1 & H2 & _)]].
  - discriminate H1.
  - discriminate H2.
  - split; [exact H1 | exact H2].
Defined.

(** X14: an order string is below every proper extension of it by
    further components: a parent order precedes the orders of its
    children. *)
Theorem CompareOrder_prefix_below (components more : list string) :
  Forall (fun c => is_order_component c = true) components ->
  Forall (fun c => is_order_component c = true) more ->
  more <> [] ->
  CompareOrder (join_dots components) (join_dots (components ++ more))
  = Some true.
Proof.
  intros Hc Hm Hne. unfold CompareOrder.
  rewrite (OrderToIntVect_join components Hc).
  rewrite (OrderToIntVect_join (components ++ more)).
  2:{ apply Forall_app. split; assumption. }
  rewrite map_app. destruct more as [|m more]; [congruence |].
  simpl. rewrite lexicographical_compare_prefix. reflexivity.
Qed.

Lemma CompareOrder_prefix_below_witness :
  CompareOrder "1.2" "1.2.0" = Some true.
Proof.
  apply (CompareOrder_prefix_below ["1"; "2"] ["0"]);
    try discriminate;
    repeat (apply List.Forall_cons; [reflexivity |]);
    apply List.Forall_nil.
Defined.

(** *** What the parser lets through *)

Lemma digit_or_not c :
  IsAsciiDigit c = false \/ (IsAsciiDigit c = true /\ 0 <= DigitValue c <= 9).
Proof.
  destruct (IsAsciiDigit c) eqn:E; [right | left; reflexivity].
  split; [reflexivity | exact (digit_value_range c E)].
Qed.

Lemma positive_digits_range s : forall acc,
  0 <= acc <= INT_MAX ->
  0 <= snd (positive_digits false acc s) <= INT_MAX.
Proof.
  induction s as [|c s IH]; intros acc Hacc; simpl; [exact Hacc |].
  destruct (digit_or_not c) as [-> | [-> Hd]]; simpl; [exact Hacc |].
  change (INT_MAX / 10) with 214748364.
  change (INT_MAX mod 10) with 7.
  destruct (214748364 <? acc) eqn:E1; simpl;
    [unfold INT_MAX; lia |].
  apply Z.ltb_ge in E1.
  destruct (acc =? 214748364) eqn:E2; simpl.
  - apply Z.eqb_eq in E2.
    destruct (7 <? DigitValue c) eqn:E3; simpl; [unfold INT_MAX; lia |].
    apply Z.ltb_ge in E3. apply IH. unfold INT_MAX in *. lia.
  - apply Z.eqb_neq in E2. apply IH. unfold INT_MAX in *. lia.
Qed.

Lemma positive_digits_first_range s :
  0 <= snd (positive_digits true 0 s) <= INT_MAX.
Proof.
  destruct s as [|c s]; simpl; [unfold INT_MAX; lia |].
  destruct (digit_or_not c) as [-> | [-> Hd]]; simpl;
    [unfold INT_MAX; lia |].
  apply positive_digits_range. unfold INT_MAX. lia.
Qed.

Lemma negative_digits_nonpositive s : forall first acc,
  acc <= 0 -> snd (negative_digits first acc s) <= 0.
Proof.
  induction s as [|c s IH]; intros first acc Hacc; simpl; [exact Hacc |].
  destruct (digit_or_not c) as [-> | [-> Hd]]; simpl; [exact Hacc |].
  destruct first; [apply IH; lia |].
  destruct ((acc <? Z.quot INT_MIN 10)
            || ((acc =? Z.quot INT_MIN 10)
                && (- Z.rem INT_MIN 10 <? DigitValue c))); simpl.
  - unfold INT_MIN. lia.
  - apply IH. lia.
Qed.

Lemma StringToInt_at_most_INT_MAX (input : string) :
  snd (StringToInt input) <= INT_MAX.
Proof.
  unfold StringToInt.
  set (body := drop_leading IsWhitespace (list_ascii_of_string input)).
  assert (Hin : forall r : bool * Z,
             snd r <= INT_MAX ->
             snd (let '(ok, output) := r in
                  (Nat.eqb (length body)
                     (length (list_ascii_of_string input)) && ok, output))
             <= INT_MAX).
  { intros [ok output] Hr. exact Hr. }
  apply Hin. destruct body as [|c rest]; [unfold INT_MAX; simpl; lia |].
  destruct (Ascii.eqb c "-").
  - destruct (is_nil rest); [unfold INT_MAX; simpl; lia |].
    pose proof (negative_digits_nonpositive rest true 0). unfold INT_MAX.
    lia.
  - destruct (Ascii.eqb c "+").
    + destruct (is_nil rest); [unfold INT_MAX; simpl; lia |].
      apply positive_digits_first_range.
    + apply positive_digits_first_range.
Qed.

Lemma check_ints_within cs : forall v,
  check_ints cs = Some v -> Forall within_int v.
Proof.
  induction cs as [|c cs IH]; intros v; simpl.
  - intros [= <-]. apply List.Forall_nil.
  - pose proof (StringToInt_at_most_INT_MAX c) as Hmax.
    destruct (StringToInt c) as [b output]. simpl in Hmax.
    destruct b; simpl; [| discriminate].
    destruct (0 <=? output) eqn:Epos; simpl; [| discriminate].
    apply Z.leb_le in Epos.
    destruct (check_ints cs) as [vec_int|]; [| discriminate].
    intros [= <-]. apply List.Forall_cons.
    + split; assumption.
    + apply IH. reflexivity.
Qed.

(** X15: whatever the string, the integers of a vector that the parser
    returns all lie between 0 and [INT_MAX]: what is compared is never a
    negative and never a wrapped-around number. *)
Theorem OrderToIntVect_within_int (s : string) (v : list Z) :
  OrderToIntVect s = Some v -> Forall within_int v.
Proof. unfold OrderToIntVect. apply check_ints_within. Qed.

Lemma OrderToIntVect_within_int_witness :
  Forall within_int [1; 10].
Proof. apply (OrderToIntVect_within_int " 1 . 10 "). reflexivity. Defined.

(** *** Splitting dotted strings in general *)

Lemma pieces_dot_free a : forall s cur,
  forallb (fun ch => negb (Ascii.eqb ch ".")) a = true ->
  pieces ["."%char] (a ++ s)%list cur
  = pieces ["."%char] s (rev a ++ cur)%list.
Proof.
  induction a as [|c a IH]; intros s cur Ha; simpl in *; [reflexivity |].
  apply andb_true_iff in Ha as [Hc Ha].
  apply negb_true_iff in Hc. rewrite Hc. simpl.
  rewrite IH by assumption. rewrite <- app_assoc. reflexivity.
Qed.

Lemma pieces_join_dot_free cs : forall c,
  Forall (fun c => is_dot_free c = true) (c :: cs) ->
  pieces ["."%char] (list_ascii_of_string (join_dots (c :: cs))) []
  = map list_ascii_of_string (c :: cs).
Proof.
  induction cs as [|c' cs IH]; intros c Hall.
  - simpl. apply List.Forall_inv in Hall. unfold is_dot_free in Hall.
    rewrite <- (app_nil_r (list_ascii_of_string c)) at 1.
    rewrite pieces_dot_free by assumption. simpl.
    rewrite app_nil_r, rev_involutive. reflexivity.
  - change (join_dots (c :: c' :: cs))
      with (c ++ "." ++ join_dots (c' :: cs)).
    pose proof (List.Forall_inv Hall) as Hc.
    pose proof (List.Forall_inv_tail Hall) as Hrest.
    unfold is_dot_free in Hc.
    rewrite !list_ascii_of_append, pieces_dot_free by assumption.
    change (list_ascii_of_string ".") with ["."%char].
    change (["."%char] ++ ?t)%list with ("."%char :: t).
    rewrite pieces_dot, app_nil_r, rev_involutive, (IH c' Hrest).
    reflexivity.
Qed.

(** The pieces the parser works on: the components, trimmed, the empty
    ones left out. *)
Lemma SplitString_join_dot_free cs :
  Forall (fun c => is_dot_free c = true) cs ->
  SplitString (join_dots cs) "." TRIM_WHITESPACE SPLIT_WANT_NONEMPTY
  = map string_of_list_ascii
      (List.filter (fun p => negb (is_nil p))
         (map TrimWhitespace (map list_ascii_of_string cs))).
Proof.
  intros Hall. destruct cs as [|c cs]; [reflexivity |].
  pose proof (pieces_join_dot_free cs c Hall) as Hp.
  unfold SplitString. change (list_ascii_of_string ".") with ["."%char].
  destruct (list_ascii_of_string (join_dots (c :: cs))) as [|x xs] eqn:E.
  - change (pieces ["."%char] [] []) with [@nil ascii] in Hp.
    rewrite <- Hp. reflexivity.
  - rewrite Hp. reflexivity.
Qed.

Lemma drop_leading_head x t :
  IsWhitespace x = false ->
  drop_leading IsWhitespace (x :: t) = x :: t.
Proof. intros Hx. simpl. rewrite Hx. reflexivity. Qed.

Lemma drop_leading_whitespace l : forall s,
  forallb IsWhitespace l = true ->
  drop_leading IsWhitespace (l ++ s) = drop_leading IsWhitespace s.
Proof.
  induction l as [|c l IH]; intros s Hl; simpl in *; [reflexivity |].
  apply andb_true_iff in Hl as [Hc Hl]. rewrite Hc. apply IH, Hl.
Qed.

Lemma forallb_rev {A} (f : A -> bool) l :
  forallb f l = true -> forallb f (rev l) = true.
Proof.
  intros Hl. apply forallb_forall. intros x Hx. apply in_rev in Hx.
  exact (proj1 (forallb_forall _ _) Hl x Hx).
Qed.

(** A piece survives splitting when trimming leaves it alone and it is
    not empty. *)
Lemma kept_piece_in_split c cs :
  In c cs ->
  TrimWhitespace (list_ascii_of_string c) = list_ascii_of_string c ->
  list_ascii_of_string c <> [] ->
  In c (map string_of_list_ascii
          (List.filter (fun p => negb (is_nil p))
             (map TrimWhitespace (map list_ascii_of_string cs)))).
Proof.
  intros Hin Htrim Hne.
  rewrite <- (string_of_list_ascii_of_string c). apply in_map.
  apply filter_In. split.
  - rewrite <- Htrim. apply in_map, in_map, Hin.
  - destruct (list_ascii_of_string c); [congruence | reflexivity].
Qed.

Lemma check_ints_rejects before bad after :
  fst (StringToInt bad) = false \/ snd (StringToInt bad) < 0 ->
  check_ints (before ++ bad :: after) = None.
Proof.
  intros Hbad. induction before as [|c before IH]; simpl.
  - destruct (StringToInt bad) as [b output]. simpl in Hbad.
    destruct b; simpl; [| reflexivity].
    destruct Hbad as [Hb | Hneg]; [discriminate |].
    apply Z.leb_gt in Hneg. rewrite Hneg. reflexivity.
  - destruct (StringToInt c) as [b output].
    destruct b; simpl; [| reflexivity].
    destruct (0 <=? output); simpl; [| reflexivity].
    rewrite IH. reflexivity.
Qed.

(** A component that trimming leaves alone and that the number parser
    refuses makes the whole string fail. *)
Lemma OrderToIntVect_rejects c cs :
  Forall (fun c => is_dot_free c = true) cs ->
  In c cs ->
  TrimWhitespace (list_ascii_of_string c) = list_ascii_of_string c ->
  list_ascii_of_string c <> [] ->
  fst (StringToInt c) = false \/ snd (StringToInt c) < 0 ->
  OrderToIntVect (join_dots cs) = None.
Proof.
  intros Hall Hin Htrim Hne Hbad. unfold OrderToIntVect.
  rewrite (SplitString_join_dot_free cs Hall).
  destruct (in_split _ _ (kept_piece_in_split c cs Hin Htrim Hne))
    as (before & after & ->).
  exact (check_ints_rejects before c after Hbad).
Qed.

(** *** Components beyond [int] *)

Lemma positive_digits_overflow s : forall acc,
  forallb IsAsciiDigit s = true ->
  0 <= acc <= INT_MAX ->
  INT_MAX < decimal_value_from acc s ->
  fst (positive_digits false acc s) = false.
Proof.
  induction s as [|c s IH]; intros acc Hs Hacc Hover; simpl in *; [lia |].
  apply andb_true_iff in Hs as [Hc Hs]. rewrite Hc. simpl.
  pose proof (digit_value_range c Hc) as Hd.
  change (INT_MAX / 10) with 214748364.
  change (INT_MAX mod 10) with 7.
  destruct (214748364 <? acc) eqn:E1; simpl; [reflexivity |].
  apply Z.ltb_ge in E1.
  destruct (acc =? 214748364) eqn:E2; simpl.
  - apply Z.eqb_eq in E2.
    destruct (7 <? DigitValue c) eqn:E3; simpl; [reflexivity |].
    apply Z.ltb_ge in E3. apply IH; try assumption.
    unfold INT_MAX in *. lia.
  - apply Z.eqb_neq in E2. apply IH; try assumption.
    unfold INT_MAX in *. lia.
Qed.

Lemma is_decimal_dot_free c : is_decimal c = true -> is_dot_free c = true.
Proof.
  intros Hc. destruct (is_decimal_digits c Hc) as [Hd _].
  unfold is_dot_free. apply forallb_forall. intros ch Hch.
  apply negb_true_iff.
  apply (digit_not_char ch "." (proj1 (forallb_forall _ _) Hd ch Hch)).
  vm_compute. lia.
Qed.

Lemma StringToInt_overflow c :
  is_decimal c = true ->
  INT_MAX < decimal_value c ->
  fst (StringToInt c) = false.
Proof.
  unfold decimal_value, StringToInt. intros Hc Hover.
  destruct (is_decimal_digits c Hc) as [Hs Hne].
  rewrite (drop_leading_digits _ Hs), Nat.eqb_refl.
  destruct (list_ascii_of_string c) as [|ch rest]; [congruence |].
  pose proof Hs as Hs'. simpl in Hs'.
  apply andb_true_iff in Hs' as [Hch Hrest].
  rewrite (digit_not_char ch "-" Hch) by (vm_compute; lia).
  rewrite (digit_not_char ch "+" Hch) by (vm_compute; lia).
  pose proof (digit_value_range ch Hch) as Hd.
  pose proof (positive_digits_overflow rest (0 + DigitValue ch) Hrest)
    as Hov.
  simpl in Hover.
  assert (Hf : fst (positive_digits false (0 + DigitValue ch) rest) = false).
  { apply Hov; [unfold INT_MAX; lia |].
    replace (0 + DigitValue ch) with (0 * 10 + DigitValue ch) by lia.
    exact Hover. }
  simpl. rewrite Hch. simpl.
  destruct (positive_digits false (0 + DigitValue ch) rest) as [ok output].
  exact Hf.
Qed.

(** X16: a decimal component above [INT_MAX], wherever it stands among
    the components of an order string, makes the parser stop at its
    [CHECK]: no vector is returned, and no comparison with that string
    on either side returns. *)
Theorem OrderToIntVect_component_overflow
    (c : string) (cs : list string) (other : string) :
  Forall (fun c => is_dot_free c = true) cs ->
  In c cs ->
  is_decimal c = true ->
  INT_MAX < decimal_value c ->
  OrderToIntVect (join_dots cs) = None
  /\ CompareOrder (join_dots cs) other = None
  /\ CompareOrder other (join_dots cs) = None.
Proof.
  intros Hall Hin Hc Hover.
  assert (Hfail : OrderToIntVect (join_dots cs) = None).
  { apply (OrderToIntVect_rejects c cs Hall Hin).
    - apply TrimWhitespace_digits, (is_decimal_digits c Hc).
    - apply (is_decimal_digits c Hc).
    - left. exact (StringToInt_overflow c Hc Hover). }
  unfold CompareOrder. rewrite Hfail.
  repeat split. destruct (OrderToIntVect other); reflexivity.
Qed.

Lemma OrderToIntVect_component_overflow_witness :
  OrderToIntVect "1.4294967296.x" = None.
Proof.
  apply (OrderToIntVect_component_overflow "4294967296"
           ["1"; "4294967296"; "x"] "");
    [ repeat (apply List.Forall_cons; [reflexivity |]);
      apply List.Forall_nil
    | right; left; reflexivity
    | reflexivity
    | reflexivity ].
Defined.

(** *** Components with a minus sign *)

Lemma negative_digits_below s : forall acc,
  acc < 0 ->
  fst (negative_digits false acc s) = false
  \/ snd (negative_digits false acc s) < 0.
Proof.
  induction s as [|c s IH]; intros acc Hacc; simpl; [right; exact Hacc |].
  destruct (digit_or_not c) as [-> | [-> Hd]]; simpl;
    [left; reflexivity |].
  destruct ((acc <? Z.quot INT_MIN 10)
            || ((acc =? Z.quot INT_MIN 10)
                && (- Z.rem INT_MIN 10 <? DigitValue c))); simpl.
  - left. reflexivity.
  - apply IH. lia.
Qed.

Lemma negative_digits_nonzero s : forall first,
  forallb IsAsciiDigit s = true ->
  0 < decimal_value_from 0 s ->
  fst (negative_digits first 0 s) = false
  \/ snd (negative_digits first 0 s) < 0.
Proof.
  induction s as [|c s IH]; intros first Hs Hpos; simpl in *; [lia |].
  apply andb_true_iff in Hs as [Hc Hs]. rewrite Hc. simpl.
  pose proof (digit_value_range c Hc) as Hd.
  assert (Hstep : forall acc, acc = - DigitValue c ->
            fst (negative_digits false acc s) = false
            \/ snd (negative_digits false acc s) < 0).
  { intros acc ->. destruct (Z.eq_dec (DigitValue c) 0) as [Hz | Hnz].
    - rewrite Hz in *. apply IH; assumption.
    - apply negative_digits_below. lia. }
  destruct first; [apply Hstep; lia |].
  change ((0 <? Z.quot INT_MIN 10)
          || ((0 =? Z.quot INT_MIN 10)
              && (- Z.rem INT_MIN 10 <? DigitValue c))) with false.
  apply Hstep. lia.
Qed.

Lemma StringToInt_negative d :
  is_decimal d = true ->
  0 < decimal_value d ->
  fst (StringToInt ("-" ++ d)) = false \/ snd (StringToInt ("-" ++ d)) < 0.
Proof.
  unfold decimal_value. intros Hd Hpos.
  destruct (is_decimal_digits d Hd) as [Hs Hne].
  pose proof (negative_digits_nonzero _ true Hs Hpos) as Hneg.
  unfold StringToInt.
  change (list_ascii_of_string ("-" ++ d))
    with ("-"%char :: list_ascii_of_string d).
  rewrite drop_leading_head by reflexivity.
  rewrite Nat.eqb_refl.
  change (Ascii.eqb "-" "-") with true. cbv iota.
  destruct (list_ascii_of_string d) as [|ch rest]; [congruence |].
  cbn [is_nil].
  destruct (negative_digits true 0 (ch :: rest)) as [ok output].
  simpl in *. exact Hneg.
Qed.

(** X17: a component written with a minus sign and a value other than
    zero, wherever it stands among the components of an order string,
    makes the parser stop at a [CHECK]: no vector is returned. *)
Theorem OrderToIntVect_component_negative
    (d : string) (cs : list string) :
  Forall (fun c => is_dot_free c = true) cs ->
  In ("-" ++ d) cs ->
  is_decimal d = true ->
  0 < decimal_value d ->
  OrderToIntVect (join_dots cs) = None.
Proof.
  intros Hall Hin Hd Hpos.
  destruct (is_decimal_digits d Hd) as [Hs Hne].
  apply (OrderToIntVect_rejects ("-" ++ d) cs Hall Hin).
  - change (list_ascii_of_string ("-" ++ d))
      with ("-"%char :: list_ascii_of_string d).
    unfold TrimWhitespace. rewrite drop_leading_head by reflexivity.
    change (rev ("-"%char :: list_ascii_of_string d))
      with (rev (list_ascii_of_string d) ++ ["-"%char])%list.
    pose proof (forallb_rev _ _ Hs) as Hr.
    destruct (rev (list_ascii_of_string d)) as [|y t] eqn:Er.
    { apply (f_equal (@rev ascii)) in Er.
      rewrite rev_involutive in Er. simpl in Er. congruence. }
    simpl in Hr. apply andb_true_iff in Hr as [Hy _].
    change ((y :: t) ++ ["-"%char])%list with (y :: t ++ ["-"%char])%list.
    rewrite (drop_leading_head y _ (digit_not_whitespace y Hy)).
    change (y :: t ++ ["-"%char])%list with ((y :: t) ++ ["-"%char])%list.
    rewrite <- Er, rev_app_distr, rev_involutive. reflexivity.
  - discriminate.
  - exact (StringToInt_negative d Hd Hpos).
Qed.

Lemma OrderToIntVect_component_negative_witness :
  OrderToIntVect "1.-2.3" = None.
Proof.
  apply (OrderToIntVect_component_negative "2" ["1"; "-2"; "3"]);
    [ repeat (apply List.Forall_cons; [reflexivity |]);
      apply List.Forall_nil
    | right; left; reflexivity
    | reflexivity
    | reflexivity ].
Defined.

(** *** Whitespace and empty components *)

Lemma whitespace_not_dot ch :
  IsWhitespace ch = true -> negb (Ascii.eqb ch ".") = true.
Proof.
  intros Hw. apply negb_true_iff, Ascii.eqb_neq. intros ->.
  discriminate Hw.
Qed.

Lemma drop_leading_all_whitespace l :
  forallb IsWhitespace l = true -> drop_leading IsWhitespace l = [].
Proof.
  intros Hl. rewrite <- (app_nil_r l).
  rewrite drop_leading_whitespace by assumption. reflexivity.
Qed.

Lemma padded_chars (p : PaddedComponent) :
  is_padded_piece p = true ->
  forallb IsWhitespace (list_ascii_of_string (pad_left p)) = true
  /\ forallb IsWhitespace (list_ascii_of_string (pad_right p)) = true
  /\ forallb IsAsciiDigit (list_ascii_of_string (component p)) = true
  /\ (is_empty (component p) = false ->
      is_order_component (component p) = true).
Proof.
  unfold is_padded_piece, is_whitespace_run. intros Hp.
  apply andb_true_iff in Hp as [Hp Hc].
  apply andb_true_iff in Hp as [Hl Hr].
  repeat split; try assumption.
  - apply orb_true_iff in Hc as [He | Ho].
    + unfold is_empty in He.
      destruct (list_ascii_of_string (component p)); [reflexivity |].
      discriminate He.
    + unfold is_order_component in Ho.
      apply andb_true_iff in Ho as [Ho _].
      exact (proj1 (is_decimal_digits _ Ho)).
  - intros He. rewrite He in Hc. exact Hc.
Qed.

Lemma padded_dot_free (p : PaddedComponent) :
  is_padded_piece p = true -> is_dot_free (padded p) = true.
Proof.
  intros Hp. destruct (padded_chars p Hp) as (Hl & Hr & Hc & _).
  unfold is_dot_free, padded. rewrite !list_ascii_of_append.
  rewrite !forallb_app. repeat (apply andb_true_iff; split);
    apply forallb_forall; intros ch Hch.
  - exact (whitespace_not_dot ch (proj1 (forallb_forall _ _) Hl ch Hch)).
  - apply negb_true_iff.
    apply (digit_not_char ch "." (proj1 (forallb_forall _ _) Hc ch Hch)).
    vm_compute. lia.
  - exact (whitespace_not_dot ch (proj1 (forallb_forall _ _) Hr ch Hch)).
Qed.

Lemma TrimWhitespace_padded (p : PaddedComponent) :
  is_padded_piece p = true ->
  TrimWhitespace (list_ascii_of_string (padded p))
  = list_ascii_of_string (component p).
Proof.
  intros Hp. destruct (padded_chars p Hp) as (Hl & Hr & Hc & _).
  unfold padded, TrimWhitespace. rewrite !list_ascii_of_append.
  rewrite (drop_leading_whitespace _ _ Hl).
  destruct (list_ascii_of_string (component p)) as [|x t] eqn:Ec.
  - simpl. rewrite (drop_leading_all_whitespace _ Hr). reflexivity.
  - pose proof Hc as Hx. simpl in Hx.
    apply andb_true_iff in Hx as [Hx _].
    change ((x :: t) ++ list_ascii_of_string (pad_right p))%list
      with (x :: t ++ list_ascii_of_string (pad_right p))%list.
    rewrite (drop_leading_head x _ (digit_not_whitespace x Hx)).
    change (x :: t ++ list_ascii_of_string (pad_right p))%list
      with ((x :: t) ++ list_ascii_of_string (pad_right p))%list.
    rewrite rev_app_distr.
    rewrite (drop_leading_whitespace _ _ (forallb_rev _ _ Hr)).
    rewrite (drop_leading_digits _ (forallb_rev _ _ Hc)).
    apply rev_involutive.
Qed.

Lemma kept_components (ps : list PaddedComponent) :
  Forall (fun p => is_padded_piece p = true) ps ->
  map string_of_list_ascii
    (List.filter (fun p => negb (is_nil p))
       (map TrimWhitespace (map list_ascii_of_string (map padded ps))))
  = List.filter (fun c => negb (is_empty c)) (map component ps).
Proof.
  induction 1 as [|p ps Hp _ IH]; [reflexivity |].
  cbn [map List.filter]. rewrite (TrimWhitespace_padded p Hp).
  unfold is_empty at 1.
  destruct (is_nil (list_ascii_of_string (component p))) eqn:E;
    cbn [negb map]; [exact IH |].
  rewrite string_of_list_ascii_of_string. f_equal. exact IH.
Qed.

(** X18: whitespace around the components and empty components (doubled,
    leading or trailing dots) do not count: the parser returns the values
    of the components that are not empty, in order. *)
Theorem OrderToIntVect_ignores_padding (ps : list PaddedComponent) :
  Forall (fun p => is_padded_piece p = true) ps ->
  OrderToIntVect (join_dots (map padded ps)) = Some (padded_values ps).
Proof.
  intros Hall. unfold OrderToIntVect, padded_values.
  rewrite SplitString_join_dot_free.
  2:{ apply Forall_map. revert Hall. apply List.Forall_impl.
      exact padded_dot_free. }
  rewrite (kept_components ps Hall).
  apply check_ints_components.
  induction Hall as [|p ps Hp _ IH]; [apply List.Forall_nil |].
  cbn [map List.filter].
  destruct (is_empty (component p)) eqn:E; cbn [negb]; [exact IH |].
  apply List.Forall_cons; [| exact IH].
  exact (proj2 (proj2 (proj2 (padded_chars p Hp))) E).
Qed.

Lemma OrderToIntVect_ignores_padding_witness :
  OrderToIntVect " 1 ..2. " = Some [1; 2].
Proof.
  apply (OrderToIntVect_ignores_padding
           [ {| pad_left := " "; component := "1"; pad_right := " " |};
             {| pad_left := ""; component := ""; pad_right := "" |};
             {| pad_left := ""; component := "2"; pad_right := "" |};
             {| pad_left := " "; component := ""; pad_right := "" |} ]).
  repeat (apply List.Forall_cons; [reflexivity |]). apply List.Forall_nil.
Defined.

(** *** Components that are no numbers *)









End BookmarkOrderLaws.
